(** * STEMI detection page: a model of [Home] and its TensorFlow.js pipeline

    The page builds an untrained sequential CNN once ([loadModel]), turns an
    uploaded picture into a [1,224,224,3] float32 tensor ([preprocessImage])
    and reads the two softmax outputs of one forward pass ([analyzeECG]).

    Conventions of the embedding:
    - JavaScript integers (dimensions, indices, pixel bytes) are [Z];
    - float32 tensor elements are IEEE binary32 values ([spec_float] with
      precision 24), computed with the operations of [SpecFloat];
    - a JavaScript number that is not an integer by construction (a draw of
      [Math.random] and what is computed from it) is an IEEE binary64 value
      ([spec_float] with precision 53);
    - the arithmetic of the forward pass is idealised: it is carried out
      over [R], so the properties below speak of the shape, the success and
      the use of its output, not of the digits a backend rounds it to;
    - the TensorFlow.js engine is an explicit state ([Engine]): the ids of
      the live tensors, the registered variables (the weights) and the
      random generator that dropout would consult in training mode;
    - a JavaScript exception is the outcome [Throw]; a promise that is never
      settled is [Pending];
    - the page handles one event at a time: an analysis runs until it
      completes or suspends for good before the next event is taken. *)

From Stdlib Require Import ZArith QArith Reals Lra Lia String.
From Stdlib Require Import Floats.SpecFloat.
From stdpp Require Import base decidable option list list_numbers gmap strings.

Open Scope Z_scope.

(** ** IEEE binary32, the element type of a float32 tensor *)

Module F32.
Definition prec : Z := 24.
Definition emax : Z := 128.

(** The float32 nearest to an integer (exact below 2^24). *)
Definition of_Z (n : Z) : spec_float := binary_normalize prec emax n 0 false.

Definition div : spec_float -> spec_float -> spec_float := SFdiv prec emax.

Definition zero : spec_float := S754_zero false.
Definition one : spec_float := S754_finite false 8388608 (-23).


(** The real number a finite float stands for. *)
Definition to_R (x : spec_float) : R :=
  match x with
  | S754_finite s m e =>
      ((if s then -1 else 1) * IZR (Z.pos m) * powerRZ 2 e)%R
  | _ => 0%R
  end.
End F32.

(** ** IEEE binary64, the JavaScript number *)

Module F64.
Definition prec : Z := 53.
Definition emax : Z := 1024.

(** The double nearest to an integer (exact below 2^53). *)
Definition of_Z (n : Z) : spec_float := binary_normalize prec emax n 0 false.

Definition mul : spec_float -> spec_float -> spec_float := SFmul prec emax.
Definition div : spec_float -> spec_float -> spec_float := SFdiv prec emax.
Definition add : spec_float -> spec_float -> spec_float := SFadd prec emax.

(** A decimal literal [n/d] of the source denotes the double nearest to
    the quotient. *)
Definition literal (n d : Z) : spec_float := div (of_Z n) (of_Z d).

(** [x > y]; false when either is NaN. *)
Definition gt (x y : spec_float) : bool := SFltb y x.

(** The integer below a finite double: floor(m * 2^e). *)
Definition to_Z (x : spec_float) : option Z :=
  match x with
  | S754_zero _ => Some 0
  | S754_finite s m e => Some (Z.shiftl (cond_Zopp s (Z.pos m)) e)
  | _ => None
  end.

(** [Math.floor]: a double with a negative exponent lies below 2^53 in
    absolute value, so its floor is a double. *)
Definition floor (x : spec_float) : spec_float :=
  match x with
  | S754_finite s m e =>
      if 0 <=? e then x else of_Z (Z.shiftl (cond_Zopp s (Z.pos m)) e)
  | _ => x
  end.

Definition zero : spec_float := S754_zero false.
Definition one : spec_float := S754_finite false 4503599627370496 (-52).

(** What [Math.random] returns: a double, at least 0 and below 1. *)
Definition is_draw (x : spec_float) : bool :=
  valid_binary prec emax x && SFleb zero x && SFltb x one.
End F64.

(** ** Tensors and the engine that tracks them *)

Inductive Outcome (A : Type) : Type :=
| Ok (a : A)
| Throw (msg : string).
Arguments Ok {A} a.
Arguments Throw {A} msg.

(** A tensor object: its engine id, its shape and its flat row-major data. *)
Record Tensor (A : Type) : Type := mkTensor {
  tid : nat;
  shape : list Z;
  values : list A
}.
Arguments mkTensor {A} tid shape values.
Arguments tid {A} t.
Arguments shape {A} t.
Arguments values {A} t.

(** The engine state: [live] is the set behind [tf.memory().numTensors],
    [vars] the registered variables (layer weights), [rng] the generator
    state, [forward_passes] counts the calls of [predict]. *)
Record Engine : Type := mkEngine {
  next_id : nat;
  live : gset nat;
  vars : gmap nat (Tensor R);
  rng : Z;
  forward_passes : nat
}.

Definition numTensors (e : Engine) : nat := size (live e).

Definition M (A : Type) : Type := Engine -> Outcome A * Engine.

Definition ret {A} (a : A) : M A := fun e => (Ok a, e).
Definition throw {A} (msg : string) : M A := fun e => (Throw msg, e).
Definition bind {A B} (c : M A) (k : A -> M B) : M B :=
  fun e => match c e with
           | (Ok a, e') => k a e'
           | (Throw msg, e') => (Throw msg, e')
           end.

Notation "'let*' x ':=' c1 'in' c2" := (bind c1 (fun x => c2))
  (at level 10, x name, c1 at level 100, c2 at level 200).

(** Every op result is a new tensor object registered with the engine. *)
Definition register {A} (sh : list Z) (vs : list A) : M (Tensor A) :=
  fun e =>
    (Ok (mkTensor (next_id e) sh vs),
     mkEngine (S (next_id e)) ({[ next_id e ]} ∪ live e) (vars e) (rng e)
              (forward_passes e)).

(** An op refuses a tensor that was disposed. *)
Definition use {A} (t : Tensor A) : M unit :=
  fun e => if decide (tid t ∈ live e) then (Ok tt, e)
           else (Throw "Tensor is disposed.", e).

(** [t.dispose()]: releases the tensor; a second call does nothing. *)
Definition dispose {A} (t : Tensor A) (e : Engine) : Engine :=
  mkEngine (next_id e) (live e ∖ {[ tid t ]}) (delete (tid t) (vars e)) (rng e)
           (forward_passes e).

(** Reading a typed array: an index out of range reads [d]. *)
Definition at_index {A} (d : A) (l : list A) (i : Z) : A :=
  if i <? 0 then d else default d (l !! Z.to_nat i).

Definition size_of (sh : list Z) : Z := foldr Z.mul 1 sh.

(** ** The decoded image and the ops of [preprocessImage] *)

(** What the canvas hands to [tf.browser.fromPixels]: RGBA bytes, row-major. *)
Record ImageData : Type := mkImageData {
  width : Z;
  height : Z;
  data : list Z
}.


(** [tf.browser.fromPixels(img)]: int32 tensor [h,w,3], alpha dropped. Reading
    the pixels of an empty canvas raises. *)
Definition fromPixels (img : ImageData) : M (Tensor Z) :=
  if (width img <=? 0) || (height img <=? 0)
  then throw "IndexSizeError"
  else register [height img; width img; 3]
         (map (fun j => at_index 0 (data img) (j / 3 * 4 + j mod 3))
              (seqZ 0 (height img * width img * 3))).

(** The source row (column) of output row (column) [r]:
    min(old - 1, floor(r * old / new)), with the quotient taken exactly. *)
Definition nearest_index (old new r : Z) : Z := Z.min (old - 1) (r * old / new).

(** The same index as the CPU kernel of the library evaluates it, in
    doubles: [Math.min(old - 1, Math.floor((old / new) * r))]. Where
    [r * old / new] is an integer the rounded product may fall just below
    it, and the kernel then reads the row (column) before:
    [nearest_index_f64 68 224 168] is 50 where [nearest_index 68 224 168]
    is 51. Both indices lie in the source cell of the sample point, and
    that is all the contract of [preprocessImage] below says of the
    position. *)
Definition nearest_index_f64 (old new r : Z) : option Z :=
  match F64.mul (F64.div (F64.of_Z old) (F64.of_Z new)) (F64.of_Z r) with
  | S754_nan => None
  | S754_infinity s => if s then None else Some (old - 1)
  | x => option_map (Z.min (old - 1)) (F64.to_Z x)
  end.

(** [t.resizeNearestNeighbor([newH, newW])] on a rank-3 tensor. *)
Definition resizeNearestNeighbor {A} (d : A) (newH newW : Z) (t : Tensor A)
  : M (Tensor A) :=
  let* _ := use t in
  match shape t with
  | [h; w; c] =>
      register [newH; newW; c]
        (map (fun j =>
                let ch := j mod c in
                let col := j / c mod newW in
                let r := j / (c * newW) in
                at_index d (values t)
                  ((nearest_index h newH r * w + nearest_index w newW col) * c + ch))
             (seqZ 0 (newH * newW * c)))
  | _ => throw "Error in resizeNearestNeighbor: x must be rank 3"
  end.

(** [t.toFloat()]: cast int32 to float32. *)
Definition toFloat (t : Tensor Z) : M (Tensor spec_float) :=
  let* _ := use t in register (shape t) (map F32.of_Z (values t)).

(** [t.div(c)] for a scalar [c]: element-wise float32 division. The scalar
    tensor made for [c] lives only inside the op. *)
Definition div (t : Tensor spec_float) (c : Z) : M (Tensor spec_float) :=
  let* _ := use t in register (shape t) (map (fun x => F32.div x (F32.of_Z c)) (values t)).

(** [t.expandDims(0)]. *)
Definition expandDims {A} (t : Tensor A) : M (Tensor A) :=
  let* _ := use t in register (1 :: shape t) (values t).

(** The body of [img.onload]. *)
Definition pixelsToTensor (img : ImageData) : M (Tensor spec_float) :=
  let* t0 := fromPixels img in
  let* t1 := resizeNearestNeighbor 0 224 224 t0 in
  let* t2 := toFloat t1 in
  let* t3 := div t2 255 in
  expandDims t3.

(** How an asynchronous computation ends, if it does. *)
Inductive Promise (A : Type) : Type :=
| Resolved (a : A)
| Rejected (msg : string)
| Pending.
Arguments Resolved {A} a.
Arguments Rejected {A} msg.
Arguments Pending {A}.

(** [preprocessImage]: the promise is resolved by [onload] only; when the
    picture does not decode, or the handler raises, nothing settles it. *)
Definition preprocessImage (decode : string -> option ImageData) (src : string)
  : Engine -> Promise (Tensor spec_float) * Engine :=
  fun e =>
    match decode src with
    | None => (Pending, e)
    | Some img =>
        match pixelsToTensor img e with
        | (Ok t, e') => (Resolved t, e')
        | (Throw _, e') => (Pending, e')
        end
    end.

(** The channel [ch] of the source pixel at ([row], [col]). *)
Definition pixel (img : ImageData) (row col ch : Z) : Z :=
  at_index 0 (data img) ((row * width img + col) * 4 + ch).

(** ** Layers and the sequential model of [loadModel] *)

Inductive Activation : Type := relu | softmax.

(** The layer configurations the page passes to [tf.layers]; only the
    fields it sets, the others keep their defaults (stride 1 and valid
    padding for a convolution, stride equal to the pool size for a pool,
    a bias in convolutions and dense layers). *)
Inductive LayerConfig : Type :=
| conv2d (inputShape : option (list Z)) (kernelSize filters : Z)
         (activation : Activation)
| maxPooling2d (poolSize : Z)
| flatten
| dropout (rate : Q)
| dense (units : Z) (activation : Activation).

Inductive Optimizer : Type := adam (learningRate : Q).

Record CompileArgs : Type := mkCompileArgs {
  optimizer : Optimizer;
  loss : string;
  metrics : list string
}.

(** A built layer: its configuration and the ids of its variables. *)
Record Layer : Type := mkLayer {
  config : LayerConfig;
  kernel : option nat;
  bias : option nat
}.

Record LayersModel : Type := mkLayersModel {
  layers : list Layer;
  batchInputShape : list Z;
  compiled : option CompileArgs
}.

(** The argument of [tf.sequential] in [loadModel]. *)
Definition loadModel_layers : list LayerConfig :=
  [ conv2d (Some [224; 224; 3]) 3 32 relu;
    maxPooling2d 2;
    conv2d None 3 64 relu;
    maxPooling2d 2;
    conv2d None 3 128 relu;
    maxPooling2d 2;
    flatten;
    dropout (1 # 2)%Q;
    dense 128 relu;
    dropout (3 # 10)%Q;
    dense 2 softmax ].

(** The argument of [model.compile] in [loadModel]. *)
Definition loadModel_compile : CompileArgs :=
  mkCompileArgs (adam (1 # 1000)%Q) "categoricalCrossentropy" ["accuracy"].

(** Output shape of a layer for an input shape (batch dimension left out). *)
Definition computeOutputShape (cfg : LayerConfig) (sh : list Z) : option (list Z) :=
  match cfg, sh with
  | conv2d _ k f _, [h; w; _] =>
      if (0 <? h - k + 1) && (0 <? w - k + 1) then Some [h - k + 1; w - k + 1; f]
      else None
  | maxPooling2d p, [h; w; c] =>
      if (0 <? (h - p) / p + 1) && (0 <? (w - p) / p + 1)
      then Some [(h - p) / p + 1; (w - p) / p + 1; c]
      else None
  | flatten, _ :: _ => Some [size_of sh]
  | dropout _, _ => Some sh
  | dense u _, [_] => Some [u]
  | _, _ => None
  end.

(** Shapes of the kernel and of the bias a layer creates when it is built. *)
Definition weightShapes (cfg : LayerConfig) (sh : list Z) : option (list Z * list Z) :=
  match cfg, sh with
  | conv2d _ k f _, [_; _; c] => Some ([k; k; c; f], [f])
  | dense u _, [n] => Some ([n; u], [u])
  | _, _ => None
  end.

(** [addWeight]: a new variable, tracked like any tensor. *)
Definition addWeight (sh : list Z) (vs : list R) : M nat :=
  fun e =>
    (Ok (next_id e),
     mkEngine (S (next_id e)) ({[ next_id e ]} ∪ live e)
              (<[ next_id e := mkTensor (next_id e) sh vs ]> (vars e)) (rng e)
              (forward_passes e)).

(** Building one layer: the kernel takes the values the random initializer
    draws ([init], indexed by the position of the layer and of the weight),
    the bias is zero. *)
Definition buildLayer (init : nat -> Z -> R) (i : nat) (cfg : LayerConfig)
  (sh : list Z) : M Layer :=
  match weightShapes cfg sh with
  | Some (ksh, bsh) =>
      let* k := addWeight ksh (map (init i) (seqZ 0 (size_of ksh))) in
      let* b := addWeight bsh (map (fun _ => 0%R) (seqZ 0 (size_of bsh))) in
      ret (mkLayer cfg (Some k) (Some b))
  | None => ret (mkLayer cfg None None)
  end.

Fixpoint buildLayers (init : nat -> Z -> R) (i : nat) (cfgs : list LayerConfig)
  (sh : list Z) : M (list Layer) :=
  match cfgs with
  | [] => ret []
  | cfg :: rest =>
      match computeOutputShape cfg sh with
      | None => throw "Negative dimension size or incompatible input rank"
      | Some sh' =>
          let* l := buildLayer init i cfg sh in
          let* ls := buildLayers init (S i) rest sh' in
          ret (l :: ls)
      end
  end.

(** [tf.sequential({layers})]: the first layer carries the input shape, so
    every layer is built at construction. [fault] is a backend that cannot
    be initialised (unavailable, out of memory). *)
Definition sequential (fault : bool) (init : nat -> Z -> R)
  (cfgs : list LayerConfig) : M LayersModel :=
  if fault then throw "backend initialisation failed"
  else match cfgs with
       | conv2d (Some sh) _ _ _ :: _ =>
           let* ls := buildLayers init 0 cfgs sh in
           ret (mkLayersModel ls sh None)
       | _ => throw "first layer without inputShape"
       end.

(** [model.compile(args)] records the training configuration; the state of
    the optimizer plays no part in a forward pass and is left out. *)
Definition compile (args : CompileArgs) (m : LayersModel) : LayersModel :=
  mkLayersModel (layers m) (batchInputShape m) (Some args).

(** ** The forward pass *)

(** A value inside the forward pass: a shape and flat row-major data. *)
Record Array : Type := mkArray {
  dims : list Z;
  elems : list R
}.

Definition sumR (l : list R) : R := foldr Rplus 0%R l.

Definition maxR (l : list R) : R :=
  match l with
  | [] => 0%R
  | x :: l' => foldr Rmax x l'
  end.

Definition lift {A} (o : Outcome A) : M A := fun e => (o, e).

Definition readVar (id : option nat) : M (Tensor R) :=
  fun e =>
    match id with
    | Some i =>
        match vars e !! i with
        | Some t => (Ok t, e)
        | None => (Throw "Variable is disposed.", e)
        end
    | None => (Throw "layer was not built", e)
    end.

(** The activation over the last axis, of size [n]. Softmax shifts each row
    by its maximum, exponentiates and divides by the sum of the row. *)
Definition activate (act : Activation) (n : Z) (z : list R) : list R :=
  match act with
  | relu => map (Rmax 0) z
  | softmax =>
      map (fun j =>
             let row := map (fun o => at_index 0%R z (j / n * n + o)) (seqZ 0 n) in
             (exp (at_index 0%R z j - maxR row)
              / sumR (map (fun v => exp (v - maxR row)) row))%R)
          (seqZ 0 (Z.of_nat (length z)))
  end.

Definition conv2dCall (k f : Z) (act : Activation) (K B : Tensor R) (x : Array)
  : Outcome Array :=
  match dims x with
  | [b; h; w; c] =>
      let oh := h - k + 1 in
      let ow := w - k + 1 in
      if negb ((0 <? oh) && (0 <? ow)) then Throw "Negative dimension size"
      else if negb (bool_decide (shape K = [k; k; c; f]))
      then Throw "input depth must match the filter"
      else
        Ok (mkArray [b; oh; ow; f]
              (activate act f
                 (map (fun j =>
                         let o := j mod f in
                         let jj := j / f mod ow in
                         let i := j / (f * ow) mod oh in
                         let n := j / (f * ow * oh) in
                         (sumR (map (fun t =>
                                       let ch := (t mod c)%Z in
                                       let dj := (t / c mod k)%Z in
                                       let di := (t / (c * k))%Z in
                                       (at_index 0 (elems x)
                                          (((n * h + (i + di)) * w + (jj + dj)) * c + ch)%Z
                                        * at_index 0 (values K) (t * f + o)%Z)%R)
                                    (seqZ 0 (k * k * c)))
                          + at_index 0 (values B) o)%R)
                      (seqZ 0 (b * oh * ow * f)))))
  | _ => Throw "expected ndim=4"
  end.

Definition maxPooling2dCall (p : Z) (x : Array) : Outcome Array :=
  match dims x with
  | [b; h; w; c] =>
      let oh := (h - p) / p + 1 in
      let ow := (w - p) / p + 1 in
      if negb ((0 <? oh) && (0 <? ow)) then Throw "Negative dimension size"
      else
        Ok (mkArray [b; oh; ow; c]
              (map (fun j =>
                      let ch := j mod c in
                      let jj := j / c mod ow in
                      let i := j / (c * ow) mod oh in
                      let n := j / (c * ow * oh) in
                      maxR (map (fun t =>
                                   at_index 0%R (elems x)
                                     (((n * h + (i * p + t / p)) * w + (jj * p + t mod p)) * c
                                      + ch))
                                (seqZ 0 (p * p))))
                   (seqZ 0 (b * oh * ow * c))))
  | _ => Throw "expected ndim=4"
  end.

Definition flattenCall (x : Array) : Outcome Array :=
  match dims x with
  | b :: rest => Ok (mkArray [b; size_of rest] (elems x))
  | [] => Throw "expected min_ndim=1"
  end.

(** The draw that decides whether dropout keeps element [j] in training
    mode: the only reader of the generator state. The page never runs a
    layer in training mode; the generator stands for the backend's own. *)
Definition draw (s j : Z) : Q :=
  (((s + j) * 1103515245 + 12345) mod 2147483648 # 2147483648)%Q.

Definition dropoutCall (training : bool) (rate : Q) (x : Array) : M Array :=
  if training
  then fun e =>
         (Ok (mkArray (dims x)
                (map (fun j =>
                        if Qle_bool rate (draw (rng e) j)
                        then (at_index 0 (elems x) j / (1 - Q2R rate))%R
                        else 0%R)
                     (seqZ 0 (Z.of_nat (length (elems x)))))),
          mkEngine (next_id e) (live e) (vars e)
                   ((rng e * 1103515245 + 12345) mod 2147483648)
                   (forward_passes e))
  else ret x.

Definition denseCall (u : Z) (act : Activation) (K B : Tensor R) (x : Array)
  : Outcome Array :=
  match dims x with
  | [b; n] =>
      if negb (bool_decide (shape K = [n; u]))
      then Throw "expected axis -1 of the input to match the kernel"
      else
        Ok (mkArray [b; u]
              (activate act u
                 (map (fun j =>
                         let o := j mod u in
                         let i := j / u in
                         (sumR (map (fun t =>
                                       (at_index 0 (elems x) (i * n + t)%Z
                                        * at_index 0 (values K) (t * u + o)%Z)%R)
                                    (seqZ 0 n))
                          + at_index 0 (values B) o)%R)
                      (seqZ 0 (b * u)))))
  | _ => Throw "expected ndim=2"
  end.

(** [layer.call(inputs, {training})]. *)
Definition call (training : bool) (l : Layer) (x : Array) : M Array :=
  match config l with
  | conv2d _ k f act =>
      let* K := readVar (kernel l) in
      let* B := readVar (bias l) in
      lift (conv2dCall k f act K B x)
  | maxPooling2d p => lift (maxPooling2dCall p x)
  | flatten => lift (flattenCall x)
  | dropout rate => dropoutCall training rate x
  | dense u act =>
      let* K := readVar (kernel l) in
      let* B := readVar (bias l) in
      lift (denseCall u act K B x)
  end.

Fixpoint forward (training : bool) (ls : list Layer) (x : Array) : M Array :=
  match ls with
  | [] => ret x
  | l :: rest =>
      let* y := call training l x in
      forward training rest y
  end.

(** [model.predict(x)]: one forward pass in inference mode. The tensors made
    on the way are released by the library itself; the output tensor is the
    caller's. [fault] is a backend that raises during the pass. *)
Definition countPass (e : Engine) : Engine :=
  mkEngine (next_id e) (live e) (vars e) (rng e) (S (forward_passes e)).

Definition predict (fault : bool) (m : LayersModel) (x : Tensor spec_float)
  : M (Tensor R) :=
  fun e =>
    let e1 := countPass e in
    if fault then (Throw "backend failure", e1)
    else
      (let* _ := use x in
       match shape x with
       | _ :: sh =>
           if negb (bool_decide (sh = batchInputShape m))
           then throw "expected input to have the model input shape"
           else
             let* y := forward false (layers m)
                         (mkArray (shape x) (map F32.to_R (values x))) in
             register (dims y) (elems y)
       | [] => throw "expected input to have 4 dimension(s)"
       end) e1.

(** [await t.data()]: the flat data of a live tensor. *)
Definition dataOf (fault : bool) (t : Tensor R) : M (list R) :=
  if fault then throw "reading the tensor failed"
  else let* _ := use t in ret (values t).

(** ** The component [Home] *)

#[global] Instance Rgt_decision (x y : R) : Decision (x > y)%R := Rgt_dec x y.

Record Features : Type := mkFeatures {
  stElevation : bool;
  qWaveChanges : bool;
  tWaveInversion : bool;
  heartRate : spec_float
}.

Record Result : Type := mkResult {
  stemiDetected : bool;
  confidence : R;
  stemiProbability : R;
  noStemiProbability : R;
  features : Features;
  recommendation : string
}.

(** The five [useState] cells. *)
Record State : Type := mkState {
  model : option LayersModel;
  imagePreview : option string;
  prediction : option Result;
  loading : bool;
  modelLoading : bool
}.

(** The page together with what it acts on: the engine, the console and the
    alerts shown to the user. *)
Record World : Type := mkWorld {
  ui : State;
  engine : Engine;
  console : list string;
  alerts : list string
}.

Definition setModel (m : option LayersModel) (s : State) : State :=
  mkState m (imagePreview s) (prediction s) (loading s) (modelLoading s).
Definition setImagePreview (p : option string) (s : State) : State :=
  mkState (model s) p (prediction s) (loading s) (modelLoading s).
Definition setPrediction (r : option Result) (s : State) : State :=
  mkState (model s) (imagePreview s) r (loading s) (modelLoading s).
Definition setLoading (b : bool) (s : State) : State :=
  mkState (model s) (imagePreview s) (prediction s) b (modelLoading s).
Definition setModelLoading (b : bool) (s : State) : State :=
  mkState (model s) (imagePreview s) (prediction s) (loading s) b.

(** The state of the first render, with an engine that tracks nothing. *)
Definition initial : World :=
  mkWorld (mkState None None None false true) (mkEngine 0 ∅ ∅ 0 0) [] [].

(** What the surroundings decide during one analysis. *)
Record Env : Type := mkEnv {
  decode : string -> option ImageData;
  backend_fault : bool;
  data_fault : bool;
  random : nat -> spec_float
}.

(** [loadModel]: [fault] and [init] are the backend's availability and the
    draws of the weight initializers. The function catches every exception,
    so its promise is always fulfilled. *)
Definition loadModel (fault : bool) (init : nat -> Z -> R) (w : World)
  : Promise unit * World :=
  let s1 := setModelLoading true (ui w) in
  match sequential fault init loadModel_layers (engine w) with
  | (Ok m, e1) =>
      let m1 := compile loadModel_compile m in
      (Resolved tt,
       mkWorld (setModelLoading false (setModel (Some m1) s1)) e1
               (console w) (alerts w))
  | (Throw msg, e1) =>
      (Resolved tt,
       mkWorld (setModelLoading false s1) e1
               (console w ++ [("Error loading model: " ++ msg)%string])
               (alerts w))
  end.

(** [handleImageUpload]: [file] is the data URL the reader delivers, if a
    file was chosen. *)
Definition handleImageUpload (file : option string) (w : World) : World :=
  match file with
  | Some url =>
      mkWorld (setPrediction None (setImagePreview (Some url) (ui w)))
              (engine w) (console w) (alerts w)
  | None => w
  end.

(** The object [result] of [analyzeECG], from the two entries of [predArray]
    and four draws of [Math.random]; the draws are doubles and so is what
    is computed from them. *)
Definition makeResult (predArray : list R) (rnd : nat -> spec_float) : Result :=
  let stemiProbability := at_index 0%R predArray 1 in
  let noStemiProbability := at_index 0%R predArray 0 in
  mkResult
    (bool_decide (stemiProbability > 1 / 2)%R)
    (Rmax stemiProbability noStemiProbability * 100)%R
    (stemiProbability * 100)%R
    (noStemiProbability * 100)%R
    (mkFeatures (F64.gt (rnd 0%nat) (F64.literal 5 10))
                (F64.gt (rnd 1%nat) (F64.literal 6 10))
                (F64.gt (rnd 2%nat) (F64.literal 7 10))
                (F64.add (F64.floor (F64.mul (rnd 3%nat) (F64.of_Z 60)))
                         (F64.of_Z 60)))
    (if bool_decide (stemiProbability > 1 / 2)%R
     then "URGENT: Possible STEMI detected. Immediate medical attention required. Activate catheterization lab."
     else "No STEMI detected. Continue monitoring and clinical assessment.").

(** The [try] block of [analyzeECG] after the image tensor has arrived:
    predict, read, publish the result, then dispose both tensors. *)
Definition analyzeBody (env : Env) (m : LayersModel)
  (imageTensor : Tensor spec_float) (s : State) (e : Engine)
  : Outcome State * Engine :=
  match predict (backend_fault env) m imageTensor e with
  | (Throw msg, e1) => (Throw msg, e1)
  | (Ok predictions, e1) =>
      match dataOf (data_fault env) predictions e1 with
      | (Throw msg, e2) => (Throw msg, e2)
      | (Ok predArray, e2) =>
          (Ok (setPrediction (Some (makeResult predArray (random env))) s),
           dispose predictions (dispose imageTensor e2))
      end
  end.

(** A JavaScript string is falsy exactly when it is empty. *)
Definition truthy (o : option string) : option string :=
  match o with
  | Some EmptyString => None
  | _ => o
  end.

(** [analyzeECG]. When the awaited image tensor never arrives the function
    stays suspended at its first [await]: neither [catch] nor [finally]
    runs. *)
Definition analyzeECG (env : Env) (w : World) : Promise unit * World :=
  match truthy (imagePreview (ui w)), model (ui w) with
  | Some src, Some m =>
      let s1 := setLoading true (ui w) in
      match preprocessImage (decode env) src (engine w) with
      | (Resolved imageTensor, e1) =>
          match analyzeBody env m imageTensor s1 e1 with
          | (Ok s2, e2) =>
              (Resolved tt,
               mkWorld (setLoading false s2) e2 (console w) (alerts w))
          | (Throw msg, e2) =>
              (Resolved tt,
               mkWorld (setLoading false s1) e2
                       (console w ++ [("Error analyzing ECG: " ++ msg)%string])
                       (alerts w ++ ["Error analyzing ECG image. Please try again."]))
          end
      | (_, e1) => (Pending, mkWorld s1 e1 (console w) (alerts w))
      end
  | _, _ => (Resolved tt, w)
  end.

(** The two buttons: the upload button is disabled while the model loads;
    the analyze button exists once a preview is shown and is disabled
    while an analysis runs or when there is no model. *)
Definition uploadEnabled (s : State) : bool := negb (modelLoading s).

Definition analyzeEnabled (s : State) : bool :=
  bool_decide (is_Some (truthy (imagePreview s)))
  && negb (loading s || negb (bool_decide (is_Some (model s)))).

(** What the user can do once the page is mounted. *)
Inductive Event : Type :=
| Upload (file : option string)
| Analyze (env : Env).

Definition step (w : World) (ev : Event) : World :=
  match ev with
  | Upload file => if uploadEnabled (ui w) then handleImageUpload file w else w
  | Analyze env => if analyzeEnabled (ui w) then snd (analyzeECG env w) else w
  end.

(** A session: the mount effect runs [loadModel] once, then events follow. *)
Definition mount (fault : bool) (init : nat -> Z -> R) : World :=
  snd (loadModel fault init initial).

Definition session (fault : bool) (init : nat -> Z -> R) (evs : list Event)
  : World :=
  foldl step (mount fault init) evs.

(** ** Reference formulations used by the properties *)

(** The contract of [preprocessImage], position by position: the element at
    row [r], column [col], channel [ch] of the result is the float32 quotient
    by 255 of that channel of the nearest source pixel. *)
Definition preprocessed (img : ImageData) (j : Z) : spec_float :=
  let ch := j mod 3 in
  let col := j / 3 mod 224 in
  let r := j / (3 * 224) in
  F32.div
    (F32.of_Z (pixel img (nearest_index (height img) 224 r)
                     (nearest_index (width img) 224 col) ch))
    (F32.of_Z 255).

(** Row [row] of the source is a cell of the sample point of output row
    [r]: [row <= r * old / new <= row + 1]. A point inside a cell has that
    cell only; a point on the boundary of two cells has both. *)
Definition in_cell (old new r row : Z) : Prop :=
  0 <= row < old /\ new * row <= r * old <= new * (row + 1).

(** [e'] is [e] after [k] more tensors were registered and none released. *)
Definition grown (k : nat) (e e' : Engine) : Prop :=
  next_id e' = (k + next_id e)%nat /\
  live e' = list_to_set (seq (next_id e) k) ∪ live e /\
  vars e' = vars e /\
  rng e' = rng e /\
  forward_passes e' = forward_passes e.

(** An opaque picture whose three colour channels all hold [v]. *)
Definition solidImage (w h v : Z) : ImageData :=
  mkImageData w h
    (map (fun j => if j mod 4 =? 3 then 255 else v) (seqZ 0 (4 * (h * w)))).

(** Ids are handed out in increasing order: whatever the engine tracks has
    an id below [next_id], and every variable is a live tensor. *)
Definition engine_ok (e : Engine) : Prop :=
  (forall i, i ∈ live e -> (i < next_id e)%nat) /\
  (forall i, is_Some (vars e !! i) -> i ∈ live e).

(** The shape a stack of layers gives to an input of shape [sh]. *)
Fixpoint outputShape (cfgs : list LayerConfig) (sh : list Z) : option (list Z) :=
  match cfgs with
  | [] => Some sh
  | cfg :: rest =>
      match computeOutputShape cfg sh with
      | Some sh' => outputShape rest sh'
      | None => None
      end
  end.

(** A built layer finds its variables in the store [vs], the kernel with the
    shape its input calls for. *)
Definition layer_ok (vs : gmap nat (Tensor R)) (l : Layer) (sh : list Z) : Prop :=
  match weightShapes (config l) sh with
  | Some (ksh, bsh) =>
      exists k b K B,
        kernel l = Some k /\ bias l = Some b /\
        vs !! k = Some K /\ shape K = ksh /\ vs !! b = Some B
  | None => True
  end.

Fixpoint layers_ok (vs : gmap nat (Tensor R)) (ls : list Layer) (sh : list Z)
  : Prop :=
  match ls with
  | [] => True
  | l :: rest =>
      exists sh',
        computeOutputShape (config l) sh = Some sh' /\
        layer_ok vs l sh /\ layers_ok vs rest sh'
  end.

(** The architecture as the specification lists it: kernels and pools by
    both extents, layers in order. *)
Inductive SpecLayer : Type :=
| Conv2D (filters : Z) (kernel : Z * Z) (act : Activation)
         (input : option (Z * Z * Z))
| MaxPool2D (pool : Z * Z)
| Flatten
| Dropout (rate : Q)
| Dense (units : Z) (act : Activation).

Definition spec_architecture : list SpecLayer :=
  [ Conv2D 32 (3, 3) relu (Some (224, 224, 3));
    MaxPool2D (2, 2);
    Conv2D 64 (3, 3) relu None;
    MaxPool2D (2, 2);
    Conv2D 128 (3, 3) relu None;
    MaxPool2D (2, 2);
    Flatten;
    Dropout (1 # 2)%Q;
    Dense 128 relu;
    Dropout (3 # 10)%Q;
    Dense 2 softmax ].

(** How a configuration reads in those terms: a single number given as
    kernel or pool size stands for both extents. *)
Definition describe (cfg : LayerConfig) : option SpecLayer :=
  match cfg with
  | conv2d None k f a => Some (Conv2D f (k, k) a None)
  | conv2d (Some [h; w; c]) k f a => Some (Conv2D f (k, k) a (Some (h, w, c)))
  | conv2d (Some _) _ _ _ => None
  | maxPooling2d p => Some (MaxPool2D (p, p))
  | flatten => Some Flatten
  | dropout r => Some (Dropout r)
  | dense u a => Some (Dense u a)
  end.

(** [m] is a model built by [loadModel] whose variables the engine holds. *)
Definition ready (m : LayersModel) (e : Engine) : Prop :=
  map config (layers m) = loadModel_layers /\
  batchInputShape m = [224; 224; 3] /\
  layers_ok (vars e) (layers m) [224; 224; 3].

(** The engine right after a successful [predict]. *)
Definition afterPredict (e : Engine) : Engine :=
  mkEngine (S (next_id e)) ({[ next_id e ]} ∪ live e) (vars e) (rng e)
           (S (forward_passes e)).

(** Two outcomes of [predict] that a caller cannot tell apart: the same
    shape and data, or the same exception. *)
Definition is_Ok_tensor (o : Outcome (Tensor R)) : Prop :=
  match o with
  | Ok _ => True
  | Throw _ => False
  end.

Definition same_output (o1 o2 : Outcome (Tensor R)) : Prop :=
  match o1, o2 with
  | Ok y1, Ok y2 => shape y1 = shape y2 /\ values y1 = values y2
  | Throw msg1, Throw msg2 => msg1 = msg2
  | _, _ => False
  end.

(** The three ways a call of [analyzeECG] that passes its guard can go. *)
Definition suspended (env : Env) (w : World) : Prop :=
  analyzeECG env w
  = (Pending, mkWorld (setLoading true (ui w)) (engine w) (console w) (alerts w)).

Definition raised (env : Env) (w : World) (m : LayersModel) : Prop :=
  exists t e1 msg e2,
    grown 5 (engine w) e1 /\ tid t = (4 + next_id (engine w))%nat /\
    analyzeBody env m t (setLoading true (ui w)) e1 = (Throw msg, e2) /\
    (e2 = countPass e1 \/ e2 = afterPredict e1) /\
    analyzeECG env w
    = (Resolved tt,
       mkWorld (setLoading false (setLoading true (ui w))) e2
               (console w ++ [("Error analyzing ECG: " ++ msg)%string])
               (alerts w ++ ["Error analyzing ECG image. Please try again."])).

Definition published (env : Env) (w : World) (m : LayersModel) : Prop :=
  exists t e1 y,
    grown 5 (engine w) e1 /\ tid t = (4 + next_id (engine w))%nat /\
    shape t = [1; 224; 224; 3] /\
    predict (backend_fault env) m t e1 = (Ok y, afterPredict e1) /\
    tid y = next_id e1 /\
    analyzeECG env w
    = (Resolved tt,
       mkWorld (setLoading false
                  (setPrediction (Some (makeResult (values y) (random env)))
                     (setLoading true (ui w))))
               (dispose y (dispose t (afterPredict e1)))
               (console w) (alerts w)).

(** [y] is the output tensor of the analysis that the surroundings [env]
    make of the page [w]: the picture shown was turned into a tensor, the
    model held by the page ran its forward pass on that tensor and gave
    [y], and the data of [y] was read. *)
Definition analysisOutput (env : Env) (w : World) (y : Tensor R) : Prop :=
  exists src m t e1,
    truthy (imagePreview (ui w)) = Some src /\
    model (ui w) = Some m /\
    preprocessImage (decode env) src (engine w) = (Resolved t, e1) /\
    predict (backend_fault env) m t e1 = (Ok y, afterPredict e1) /\
    dataOf (data_fault env) y (afterPredict e1) = (Ok (values y), afterPredict e1).

(** ** Sample surroundings *)

(** Initializers that draw zero everywhere. *)
Definition zeroInit : nat -> Z -> R := fun _ _ => 0%R.

(** A decoder that yields a black picture of one pixel for every source. *)
Definition onePixel : string -> option ImageData :=
  fun _ => Some (solidImage 1 1 0).

(** Surroundings in which nothing fails, and surroundings in which the
    backend raises during the forward pass. *)
Definition calmEnv : Env := mkEnv onePixel false false (fun _ => F64.zero).
Definition faultyEnv : Env := mkEnv onePixel true false (fun _ => F64.zero).

(** Surroundings in which reading the output tensor fails. *)
Definition readFaultEnv : Env := mkEnv onePixel false true (fun _ => F64.zero).

(** A picture of two pixels, used to exercise [preprocessImage]. *)
Definition twoPixels : ImageData :=
  mkImageData 2 1 [10; 20; 30; 255; 200; 100; 0; 255].

(** [twoPixels] with other alpha bytes. *)
Definition twoPixelsClear : ImageData :=
  mkImageData 2 1 [10; 20; 30; 0; 200; 100; 0; 128].

(** The page holds the model [m], built by [loadModel], whose variables the
    engine still holds. *)
Definition mounted (w : World) (m : LayersModel) : Prop :=
  model (ui w) = Some m /\ ready m (engine w) /\ engine_ok (engine w).

(** The variables of a model ([model.weights]): the kernels and the biases
    of its layers. *)
Definition weights (m : LayersModel) : list nat :=
  flat_map (fun l => option_list (kernel l) ++ option_list (bias l)) (layers m).

(** Surroundings in which the picture does not decode. *)
Definition brokenEnv : Env := mkEnv (fun _ => None) false false (fun _ => F64.zero).

(** A page that shows a picture and holds a model that was never built:
    enough to start an analysis. *)
Definition bareWorld : World :=
  mkWorld (mkState (Some (mkLayersModel [] [224; 224; 3] None)) (Some "ecg")
                   None false false)
          (engine initial) [] [].

(** ** [analyzeECG] turn by turn *)

(** [analyzeECG] gives control back at its two [await]s. What is left to do
    at each is a task: waiting for the picture to load (with the picture and
    the model the handler captured at the click), waiting for the data of
    the output tensor, or suspended for good because the picture never
    loads. *)
Inductive Task : Type :=
| AwaitImage (env : Env) (src : string) (m : LayersModel)
| AwaitData (env : Env) (imageTensor : Tensor spec_float) (predictions : Tensor R)
| Suspended.

(** The [catch] block followed by the [finally] block, on the state of the
    page at the time they run. *)
Definition catchFinally (msg : string) (e : Engine) (w : World) : World :=
  mkWorld (setLoading false (ui w)) e
          (console w ++ [("Error analyzing ECG: " ++ msg)%string])
          (alerts w ++ ["Error analyzing ECG image. Please try again."]).

(** The click: the guard, [setLoading(true)], and the start of the load. *)
Definition analyzeClick (env : Env) (w : World) : World * option Task :=
  match truthy (imagePreview (ui w)), model (ui w) with
  | Some src, Some m =>
      (mkWorld (setLoading true (ui w)) (engine w) (console w) (alerts w),
       Some (AwaitImage env src m))
  | _, _ => (w, None)
  end.

(** One task runs until the next [await] or to the end. When the picture
    has loaded, [onload] builds the tensor and the handler goes on with
    [predict] in the same turn; when the data has arrived, the handler
    publishes the result, disposes and clears the loading flag. The state
    setters act on the state the page has by then. *)
Definition resume (t : Task) (w : World) : World * option Task :=
  match t with
  | AwaitImage env src m =>
      match preprocessImage (decode env) src (engine w) with
      | (Resolved imageTensor, e1) =>
          match predict (backend_fault env) m imageTensor e1 with
          | (Ok predictions, e2) =>
              (mkWorld (ui w) e2 (console w) (alerts w),
               Some (AwaitData env imageTensor predictions))
          | (Throw msg, e2) => (catchFinally msg e2 w, None)
          end
      | (_, e1) => (mkWorld (ui w) e1 (console w) (alerts w), Some Suspended)
      end
  | AwaitData env imageTensor predictions =>
      match dataOf (data_fault env) predictions (engine w) with
      | (Ok predArray, e2) =>
          (mkWorld (setLoading false
                      (setPrediction (Some (makeResult predArray (random env)))
                         (ui w)))
                   (dispose predictions (dispose imageTensor e2))
                   (console w) (alerts w),
           None)
      | (Throw msg, e2) => (catchFinally msg e2 w, None)
      end
  | Suspended => (w, Some Suspended)
  end.

(** The page with the analyses in flight. *)
Record Page : Type := mkPage {
  world : World;
  tasks : list Task
}.

(** A turn of the event loop: the user uploads a picture, the user clicks
    the analyze button, or the awaited promise of task [i] settles. *)
Inductive Action : Type :=
| UserUpload (file : option string)
| UserClick (env : Env)
| Settle (i : nat).

Definition act (p : Page) (a : Action) : Page :=
  match a with
  | UserUpload file => mkPage (step (world p) (Upload file)) (tasks p)
  | UserClick env =>
      if analyzeEnabled (ui (world p))
      then match analyzeClick env (world p) with
           | (w1, Some t) => mkPage w1 (tasks p ++ [t])
           | (w1, None) => mkPage w1 (tasks p)
           end
      else p
  | Settle i =>
      match tasks p !! i with
      | Some t =>
          match resume t (world p) with
          | (w1, Some t1) => mkPage w1 (<[ i := t1 ]> (tasks p))
          | (w1, None) => mkPage w1 (delete i (tasks p))
          end
      | None => p
      end
  end.

(** The tensors a waiting task holds are none of the variables. *)
Definition task_ok (e : Engine) (t : Task) : Prop :=
  match t with
  | AwaitData _ imageTensor predictions =>
      vars e !! tid imageTensor = None /\ vars e !! tid predictions = None
  | _ => True
  end.

(** At most one analysis is in flight, and the loading flag tells whether
    one is. *)
Definition single_flight (p : Page) : Prop :=
  (tasks p = [] /\ loading (ui (world p)) = false) \/
  (exists t, tasks p = [t] /\ task_ok (engine (world p)) t /\
             loading (ui (world p)) = true).

(** Surroundings in which every picture decodes to a canvas that is not
    empty. *)
Definition decodable (env : Env) : Prop :=
  forall src, exists img,
    decode env src = Some img /\ 0 < width img /\ 0 < height img.

Definition decodes (ev : Event) : Prop :=
  match ev with
  | Analyze env => decodable env
  | Upload _ => True
  end.

(** * Properties *)

(** ** Reading lists built over index ranges *)

Lemma lookup_map {A B} (f : A -> B) (l : list A) (i : nat) :
  map f l !! i = f <$> (l !! i).
Proof.
  revert i. induction l as [|a l IH]; intros [|i]; simpl; auto.
Qed.

Lemma lookup_map_seqZ {A} (f : Z -> A) (n i : Z) :
  0 <= i < n -> map f (seqZ 0 n) !! Z.to_nat i = Some (f i).
Proof.
  intros Hi. rewrite lookup_map, lookup_seqZ_lt by lia.
  simpl. f_equal. f_equal. lia.
Qed.

Lemma at_index_map_seqZ {A} (d : A) (f : Z -> A) (n i : Z) :
  0 <= i < n -> at_index d (map f (seqZ 0 n)) i = f i.
Proof.
  intros Hi. unfold at_index.
  destruct (Z.ltb_spec i 0) as [?|_]; [lia|].
  now rewrite lookup_map_seqZ.
Qed.

Lemma map_seqZ_ext {A} (f g : Z -> A) (n : Z) :
  (forall j, 0 <= j < n -> f j = g j) -> map f (seqZ 0 n) = map g (seqZ 0 n).
Proof.
  intros H. apply map_ext_in. intros j Hj.
  apply list_elem_of_In, elem_of_seqZ in Hj. apply H. lia.
Qed.

Lemma length_map_seqZ {A} (f : Z -> A) (n : Z) :
  length (map f (seqZ 0 n)) = Z.to_nat n.
Proof. now rewrite length_map, length_seqZ. Qed.


(** ** The engine monad *)

Lemma use_live {A} (t : Tensor A) (e : Engine) :
  tid t ∈ live e -> use t e = (Ok tt, e).
Proof. intros H. unfold use. now rewrite decide_True. Qed.

Lemma bind_ok {A B} (c : M A) (k : A -> M B) (e e' : Engine) (a : A) :
  c e = (Ok a, e') -> bind c k e = k a e'.
Proof. intros H. unfold bind. now rewrite H. Qed.

(** ** The nearest-neighbour index stays inside the source *)

Lemma nearest_index_range (old new r : Z) :
  0 < old -> 0 < new -> 0 <= r -> 0 <= nearest_index old new r < old.
Proof.
  intros Ho Hn Hr. unfold nearest_index.
  assert (0 <= r * old / new) by (apply Z.div_pos; nia). lia.
Qed.


(** A sample point inside a cell has one cell: the floor of the exact
    quotient. *)
Lemma in_cell_interior (old new r row : Z) :
  0 < new -> in_cell old new r row -> (r * old) mod new <> 0 ->
  row = r * old / new.
Proof.
  intros Hn [_ [Hlo Hhi]] Hm.
  assert (Hne : r * old <> new * (row + 1)).
  { intros E. apply Hm. rewrite E, Z.mul_comm. apply Z.mod_mul. lia. }
  apply (Z.div_unique (r * old) new row (r * old - new * row)); lia.
Qed.

(** On the boundary of two cells the double product of the CPU kernel may
    fall on either side; inside a cell it does not. For the source sizes up
    to 64 and every output position, the index the kernel computes lies in
    the cell of the sample point. *)
Lemma nearest_index_f64_in_cell (old r : Z) :
  0 < old <= 64 -> 0 <= r < 224 ->
  exists row, nearest_index_f64 old 224 r = Some row /\ in_cell old 224 r row.
Proof.
  intros Ho Hr.
  assert (H : forallb (fun o =>
                forallb (fun q =>
                  match nearest_index_f64 o 224 q with
                  | Some i => (0 <=? i) && (i <? o) && (224 * i <=? q * o)
                              && (q * o <=? 224 * (i + 1))
                  | None => false
                  end) (seqZ 0 224)) (seqZ 1 64) = true)
    by (vm_compute; reflexivity).
  rewrite forallb_forall in H.
  specialize (H old ltac:(apply list_elem_of_In, elem_of_seqZ; lia)).
  rewrite forallb_forall in H.
  specialize (H r ltac:(apply list_elem_of_In, elem_of_seqZ; lia)).
  destruct (nearest_index_f64 old 224 r) as [row|]; [|discriminate H].
  exists row. split; [reflexivity|].
  apply andb_true_iff in H as [H H4]. apply andb_true_iff in H as [H H3].
  apply andb_true_iff in H as [H1 H2].
  unfold in_cell. lia.
Qed.

(** The two indices differ: at width 68, output column 168 sits on the
    boundary of the source columns 50 and 51. *)
Lemma nearest_index_f64_boundary :
  nearest_index 68 224 168 = 51 /\ nearest_index_f64 68 224 168 = Some 50.
Proof. split; vm_compute; reflexivity. Qed.

(** ** [preprocessImage] *)

Lemma fromPixels_at (img : ImageData) (row col ch : Z) :
  0 <= row < height img -> 0 <= col < width img -> 0 <= ch < 3 ->
  at_index 0
    (map (fun j => at_index 0 (data img) (j / 3 * 4 + j mod 3))
         (seqZ 0 (height img * width img * 3)))
    ((row * width img + col) * 3 + ch)
  = pixel img row col ch.
Proof.
  intros Hr Hc Hch. rewrite at_index_map_seqZ by nia.
  unfold pixel. f_equal.
  replace ((row * width img + col) * 3 + ch)
    with (ch + (row * width img + col) * 3) by lia.
  rewrite Z.div_add, Z.mod_add by lia.
  rewrite Z.div_small, Z.mod_small by lia. lia.
Qed.

Lemma fresh_in (n : nat) (s : gset nat) : n ∈ ({[ n ]} ∪ s : gset nat).
Proof. set_solver. Qed.

Lemma register_eq {A} (sh : list Z) (vs : list A) (e : Engine) :
  register sh vs e
  = (Ok (mkTensor (next_id e) sh vs),
     mkEngine (S (next_id e)) ({[ next_id e ]} ∪ live e) (vars e) (rng e)
              (forward_passes e)).
Proof. reflexivity. Qed.

Lemma resizeNearestNeighbor_live {A} (d : A) (newH newW h w c : Z)
  (t : Tensor A) (e : Engine) :
  tid t ∈ live e -> shape t = [h; w; c] ->
  resizeNearestNeighbor d newH newW t e
  = register [newH; newW; c]
      (map (fun j =>
              at_index d (values t)
                ((nearest_index h newH (j / (c * newW)) * w
                  + nearest_index w newW (j / c mod newW)) * c + j mod c))
           (seqZ 0 (newH * newW * c))) e.
Proof.
  intros Hl Hs. unfold resizeNearestNeighbor.
  erewrite bind_ok by (apply use_live; exact Hl). now rewrite Hs.
Qed.

Lemma toFloat_live (t : Tensor Z) (e : Engine) :
  tid t ∈ live e ->
  toFloat t e = register (shape t) (map F32.of_Z (values t)) e.
Proof.
  intros Hl. unfold toFloat. now erewrite bind_ok by (apply use_live; exact Hl).
Qed.

Lemma div_live (t : Tensor spec_float) (c : Z) (e : Engine) :
  tid t ∈ live e ->
  div t c e
  = register (shape t) (map (fun x => F32.div x (F32.of_Z c)) (values t)) e.
Proof.
  intros Hl. unfold div. now erewrite bind_ok by (apply use_live; exact Hl).
Qed.

Lemma expandDims_live {A} (t : Tensor A) (e : Engine) :
  tid t ∈ live e -> expandDims t e = register (1 :: shape t) (values t) e.
Proof.
  intros Hl. unfold expandDims.
  now erewrite bind_ok by (apply use_live; exact Hl).
Qed.

Lemma pixelsToTensor_ok (img : ImageData) (e : Engine) :
  0 < width img -> 0 < height img ->
  exists t e',
    pixelsToTensor img e = (Ok t, e') /\
    tid t = (4 + next_id e)%nat /\
    shape t = [1; 224; 224; 3] /\
    values t = map (preprocessed img) (seqZ 0 150528) /\
    grown 5 e e'.
Proof.
  intros Hw Hh. unfold pixelsToTensor, fromPixels.
  destruct (Z.leb_spec (width img) 0) as [?|_]; [lia|].
  destruct (Z.leb_spec (height img) 0) as [?|_]; [lia|]. simpl orb. cbv iota.
  set (v0 := map _ (seqZ 0 (height img * width img * 3))).
  erewrite bind_ok by apply register_eq.
  erewrite bind_ok.
  2:{ erewrite resizeNearestNeighbor_live; [apply register_eq| |reflexivity].
      cbn [tid live]. apply fresh_in. }
  cbn [shape values tid next_id live].
  set (v1 := map _ (seqZ 0 (224 * 224 * 3))).
  erewrite bind_ok.
  2:{ rewrite toFloat_live; [apply register_eq|]. cbn [tid live]. apply fresh_in. }
  erewrite bind_ok.
  2:{ rewrite div_live; [apply register_eq|]. cbn [tid live]. apply fresh_in. }
  rewrite expandDims_live by (cbn [tid live]; apply fresh_in).
  rewrite register_eq. cbn [shape values tid next_id live vars rng forward_passes].
  eexists _, _. split; [reflexivity|]. cbn [shape values tid].
  split; [reflexivity|]. split; [reflexivity|]. split.
  - rewrite map_map. subst v1. rewrite map_map.
    change (224 * 224 * 3) with 150528.
    apply map_seqZ_ext. intros j Hj. unfold preprocessed.
    f_equal. f_equal. cbv zeta.
    assert (0 <= j / (3 * 224)) by (apply Z.div_pos; lia).
    assert (0 <= j / 3 mod 224 < 224) by (apply Z.mod_pos_bound; lia).
    assert (0 <= j mod 3 < 3) by (apply Z.mod_pos_bound; lia).
    subst v0. apply fromPixels_at; auto.
    + apply nearest_index_range; lia.
    + apply nearest_index_range; lia.
  - unfold grown. cbn [next_id live vars rng forward_passes].
    repeat split; try reflexivity. apply set_eq. intros x.
    cbn [seq list_to_set]. rewrite !elem_of_union, !elem_of_singleton.
    rewrite elem_of_empty. tauto.
Qed.



Lemma preprocessed_at (img : ImageData) (r col ch : Z) :
  0 <= r < 224 -> 0 <= col < 224 -> 0 <= ch < 3 ->
  preprocessed img ((r * 224 + col) * 3 + ch)
  = F32.div
      (F32.of_Z (pixel img (nearest_index (height img) 224 r)
                       (nearest_index (width img) 224 col) ch))
      (F32.of_Z 255).
Proof.
  intros Hr Hc Hch. unfold preprocessed. cbv zeta.
  replace ((r * 224 + col) * 3 + ch) with (ch + (r * 224 + col) * 3) by lia.
  rewrite Z.mod_add, Z.div_add by lia.
  rewrite (Z.mod_small ch), (Z.div_small ch) by lia.
  replace (ch + (r * 224 + col) * 3) with ((ch + col * 3) + r * (3 * 224)) by lia.
  rewrite Z.div_add by lia.
  rewrite (Z.div_small (ch + col * 3)) by lia.
  replace (0 + (r * 224 + col)) with (col + r * 224) by lia.
  rewrite Z.mod_add by lia. rewrite (Z.mod_small col) by lia.
  reflexivity.
Qed.


Lemma pixel_solidImage (w h v row col ch : Z) :
  0 <= row < h -> 0 <= col < w -> 0 <= ch < 3 ->
  pixel (solidImage w h v) row col ch = v.
Proof.
  intros Hr Hc Hch. unfold pixel, solidImage. cbn [data width].
  rewrite at_index_map_seqZ by nia.
  replace ((row * w + col) * 4 + ch) with (ch + (row * w + col) * 4) by lia.
  rewrite Z.mod_add, Z.mod_small by lia.
  destruct (Z.eqb_spec ch 3); [lia|reflexivity].
Qed.

Lemma preprocess_solidImage (w h v : Z) (src : string) (e : Engine) :
  0 < w -> 0 < h ->
  exists t e',
    preprocessImage (fun _ => Some (solidImage w h v)) src e = (Resolved t, e') /\
    shape t = [1; 224; 224; 3] /\
    length (values t) = Z.to_nat 150528 /\
    Forall (fun x => x = F32.div (F32.of_Z v) (F32.of_Z 255)) (values t).
Proof.
  intros Hw Hh.
  destruct (pixelsToTensor_ok (solidImage w h v) e Hw Hh)
    as (t & e' & Hrun & _ & Hs & Hv & _).
  exists t, e'. unfold preprocessImage. rewrite Hrun.
  split; [reflexivity|]. split; [exact Hs|]. rewrite Hv. split.
  - now rewrite length_map_seqZ.
  - apply Forall_map, Forall_seqZ. intros j Hj. unfold preprocessed. cbv zeta.
    cbn [height width solidImage].
    rewrite pixel_solidImage; [reflexivity| | |].
    + apply nearest_index_range; try lia. apply Z.div_pos; lia.
    + apply nearest_index_range; try lia. apply Z.mod_pos_bound; lia.
    + apply Z.mod_pos_bound; lia.
Qed.

(** C9. A 512x512 picture whose colour channels are all 0 preprocesses to a
    (1,224,224,3) tensor of zeros, and a 100x50 picture whose colour
    channels are all 255 to a (1,224,224,3) tensor of ones. *)
Theorem preprocess_black_and_white_scenarios (src : string) (e : Engine) :
  (exists t e',
      preprocessImage (fun _ => Some (solidImage 512 512 0)) src e = (Resolved t, e') /\
      shape t = [1; 224; 224; 3] /\
      length (values t) = Z.to_nat (1 * 224 * 224 * 3) /\
      Forall (fun x => x = F32.zero) (values t)) /\
  (exists t e',
      preprocessImage (fun _ => Some (solidImage 100 50 255)) src e = (Resolved t, e') /\
      shape t = [1; 224; 224; 3] /\
      length (values t) = Z.to_nat (1 * 224 * 224 * 3) /\
      Forall (fun x => x = F32.one) (values t)).
Proof.
  split.
  - destruct (preprocess_solidImage 512 512 0 src e) as (t & e' & H); [lia..|].
    exists t, e'. exact H.
  - destruct (preprocess_solidImage 100 50 255 src e) as (t & e' & H); [lia..|].
    exists t, e'. exact H.
Qed.

(** ** Building the model *)

Lemma engine_ok_no_var (e : Engine) (i : nat) :
  engine_ok e -> (next_id e <= i)%nat -> vars e !! i = None.
Proof.
  intros [Hl Hv] Hi. destruct (vars e !! i) eqn:E; [|reflexivity].
  assert (i ∈ live e) by (apply Hv; rewrite E; eauto).
  apply Hl in H. lia.
Qed.

Lemma addWeight_spec (sh : list Z) (vs : list R) (e : Engine) :
  engine_ok e ->
  exists e',
    addWeight sh vs e = (Ok (next_id e), e') /\
    vars e' = <[ next_id e := mkTensor (next_id e) sh vs ]> (vars e) /\
    vars e ⊆ vars e' /\ engine_ok e' /\
    (next_id e <= next_id e')%nat /\
    rng e' = rng e /\ forward_passes e' = forward_passes e.
Proof.
  intros Hok. eexists. split; [reflexivity|].
  cbn [next_id live vars rng forward_passes].
  split; [reflexivity|]. split; [|split; [|split; [lia|split; reflexivity]]].
  - apply insert_subseteq. now apply engine_ok_no_var.
  - destruct Hok as [Hl Hv]. split; cbn [next_id live vars].
    + intros i Hi. apply elem_of_union in Hi as [Hi|Hi].
      * apply elem_of_singleton in Hi. lia.
      * apply Hl in Hi. lia.
    + intros i Hi. destruct (decide (i = next_id e)) as [->|Hne].
      * apply fresh_in.
      * rewrite lookup_insert_ne in Hi by congruence.
        apply elem_of_union_r. now apply Hv.
Qed.

Lemma layer_ok_mono (vs vs' : gmap nat (Tensor R)) (l : Layer) (sh : list Z) :
  vs ⊆ vs' -> layer_ok vs l sh -> layer_ok vs' l sh.
Proof.
  intros Hsub. unfold layer_ok.
  destruct (weightShapes (config l) sh) as [[ksh bsh]|]; [|auto].
  intros (k & b & K & B & Hk & Hb & HK & Hs & HB).
  exists k, b, K, B. repeat split; auto; eapply lookup_weaken; eauto.
Qed.

Lemma buildLayer_spec (init : nat -> Z -> R) (i : nat) (cfg : LayerConfig)
  (sh : list Z) (e : Engine) :
  engine_ok e ->
  exists l e',
    buildLayer init i cfg sh e = (Ok l, e') /\
    config l = cfg /\ layer_ok (vars e') l sh /\
    vars e ⊆ vars e' /\ engine_ok e' /\
    rng e' = rng e /\ forward_passes e' = forward_passes e.
Proof.
  intros Hok. unfold buildLayer, layer_ok.
  destruct (weightShapes cfg sh) as [[ksh bsh]|] eqn:Ew.
  - destruct (addWeight_spec ksh (map (init i) (seqZ 0 (size_of ksh))) e Hok)
      as (e1 & H1 & Hv1 & Hs1 & Hok1 & Hn1 & Hr1 & Hf1).
    destruct (addWeight_spec bsh (map (fun _ => 0%R) (seqZ 0 (size_of bsh))) e1 Hok1)
      as (e2 & H2 & Hv2 & Hs2 & Hok2 & Hn2 & Hr2 & Hf2).
    erewrite bind_ok by exact H1. erewrite bind_ok by exact H2.
    eexists _, e2. split; [reflexivity|]. cbn [config kernel bias]. rewrite Ew.
    split; [reflexivity|]. split; [|split; [|split; [|split]]].
    + eexists _, _, _, _. split; [reflexivity|]. split; [reflexivity|].
      split; [|split].
      * eapply lookup_weaken; [|exact Hs2]. rewrite Hv1. apply lookup_insert_eq.
      * reflexivity.
      * rewrite Hv2. apply lookup_insert_eq.
    + etransitivity; eauto.
    + exact Hok2.
    + congruence.
    + congruence.
  - eexists _, e. split; [reflexivity|]. cbn [config]. rewrite Ew.
    repeat split; auto; apply Hok.
Qed.

Lemma buildLayers_spec (init : nat -> Z -> R) (cfgs : list LayerConfig) :
  forall (i : nat) (sh : list Z) (e : Engine),
    engine_ok e -> is_Some (outputShape cfgs sh) ->
    exists ls e',
      buildLayers init i cfgs sh e = (Ok ls, e') /\
      map config ls = cfgs /\ layers_ok (vars e') ls sh /\
      vars e ⊆ vars e' /\ engine_ok e' /\
      rng e' = rng e /\ forward_passes e' = forward_passes e.
Proof.
  induction cfgs as [|cfg rest IH]; intros i sh e Hok Hsh.
  - exists [], e. simpl. repeat split; auto; apply Hok.
  - simpl in Hsh |- *.
    destruct (computeOutputShape cfg sh) as [sh'|] eqn:Ec;
      [|destruct Hsh; discriminate].
    destruct (buildLayer_spec init i cfg sh e Hok)
      as (l & e1 & H1 & Hc1 & Hl1 & Hs1 & Hok1 & Hr1 & Hf1).
    destruct (IH (S i) sh' e1 Hok1 Hsh)
      as (ls & e2 & H2 & Hc2 & Hl2 & Hs2 & Hok2 & Hr2 & Hf2).
    erewrite bind_ok by exact H1. erewrite bind_ok by exact H2.
    exists (l :: ls), e2. split; [reflexivity|]. simpl.
    split; [congruence|]. split; [|split; [|split; [|split]]].
    + exists sh'. rewrite Hc1. repeat split; auto.
      eapply layer_ok_mono; eauto.
    + etransitivity; eauto.
    + exact Hok2.
    + congruence.
    + congruence.
Qed.

Lemma loadModel_layers_shape : outputShape loadModel_layers [224; 224; 3] = Some [2].
Proof. reflexivity. Qed.

Lemma sequential_spec (init : nat -> Z -> R) (e : Engine) :
  engine_ok e ->
  exists m e',
    sequential false init loadModel_layers e = (Ok m, e') /\
    map config (layers m) = loadModel_layers /\
    batchInputShape m = [224; 224; 3] /\
    compiled m = None /\
    layers_ok (vars e') (layers m) [224; 224; 3] /\
    vars e ⊆ vars e' /\ engine_ok e' /\
    rng e' = rng e /\ forward_passes e' = forward_passes e.
Proof.
  intros Hok.
  destruct (buildLayers_spec init loadModel_layers 0 [224; 224; 3] e Hok)
    as (ls & e' & Hb & Hc & Hl & Hs & Hok' & Hr & Hf).
  { rewrite loadModel_layers_shape. eauto. }
  exists (mkLayersModel ls [224; 224; 3] None), e'.
  split; [|repeat split; auto; apply Hok'].
  unfold sequential.
  change loadModel_layers with
    (conv2d (Some [224; 224; 3]) 3 32 relu :: tl loadModel_layers) in Hb |- * at 1.
  cbv iota. erewrite bind_ok by exact Hb. reflexivity.
Qed.

Lemma engine_ok_initial : engine_ok (engine initial).
Proof.
  split; cbn [initial engine live vars next_id]; intros i Hi.
  - now apply not_elem_of_empty in Hi.
  - rewrite lookup_empty in Hi. now destruct Hi.
Qed.

(** What the mount effect leaves behind when the backend is available. *)
Lemma mount_spec (init : nat -> Z -> R) :
  exists m,
    model (ui (mount false init)) = Some m /\
    map config (layers m) = loadModel_layers /\
    batchInputShape m = [224; 224; 3] /\
    compiled m = Some loadModel_compile /\
    layers_ok (vars (engine (mount false init))) (layers m) [224; 224; 3] /\
    engine_ok (engine (mount false init)) /\
    ui (mount false init) = mkState (Some m) None None false false /\
    console (mount false init) = [] /\ alerts (mount false init) = [].
Proof.
  destruct (sequential_spec init (engine initial) engine_ok_initial)
    as (m & e' & Hs & Hc & Hb & _ & Hl & _ & Hok & _).
  exists (compile loadModel_compile m).
  unfold mount, loadModel. rewrite Hs. cbn [snd ui engine console alerts].
  cbn [compile layers batchInputShape compiled model].
  repeat split; auto. apply Hok. apply Hok.
Qed.

(** C4. [loadModel] takes no parameter of the caller and, on an available
    backend, publishes a model whose layers are, in order, exactly those of
    the specified architecture, with input shape (224,224,3), compiled with
    Adam at learning rate 0.001, categorical cross-entropy and the accuracy
    metric. *)
Theorem loadModel_architecture (init : nat -> Z -> R) :
  exists m,
    loadModel false init initial = (Resolved tt, mount false init) /\
    model (ui (mount false init)) = Some m /\
    map (fun l => describe (config l)) (layers m) = map Some spec_architecture /\
    batchInputShape m = [224; 224; 3] /\
    compiled m
    = Some (mkCompileArgs (adam (1 # 1000)%Q) "categoricalCrossentropy" ["accuracy"]).
Proof.
  destruct (mount_spec init) as (m & Hm & Hc & Hb & Hcomp & _).
  exists m. split; [|split; [exact Hm|split; [|split; [exact Hb|exact Hcomp]]]].
  - unfold mount, loadModel.
    destruct (sequential false init loadModel_layers (engine initial))
      as [[m'|msg] e'] eqn:E; reflexivity.
  - rewrite <- (map_map config describe), Hc. reflexivity.
Qed.

(** ** The forward pass in inference mode *)

Lemma bind_readVar {B} (id : option nat) (k : Tensor R -> M B) (e : Engine) :
  bind (readVar id) k e
  = match id with
    | Some i => match vars e !! i with
                | Some t => k t e
                | None => (Throw "Variable is disposed.", e)
                end
    | None => (Throw "layer was not built", e)
    end.
Proof.
  unfold bind, readVar. destruct id as [i|]; [|reflexivity].
  now destruct (vars e !! i).
Qed.

(** A layer called in inference mode returns the engine it was given. *)
Lemma call_inference_engine (l : Layer) (x : Array) (e : Engine) :
  snd (call false l x e) = e.
Proof.
  unfold call.
  destruct (config l) as [ish k f act|p| |rate|u act]; try reflexivity;
    rewrite bind_readVar;
    (destruct (kernel l) as [i|]; [|reflexivity]);
    (destruct (vars e !! i); [|reflexivity]);
    rewrite bind_readVar;
    (destruct (bias l) as [i'|]; [|reflexivity]);
    destruct (vars e !! i'); reflexivity.
Qed.

(** What it computes depends on the engine through the variables only. *)
Lemma call_inference_vars (l : Layer) (x : Array) (e1 e2 : Engine) :
  vars e1 = vars e2 -> fst (call false l x e1) = fst (call false l x e2).
Proof.
  intros Hv. unfold call.
  destruct (config l) as [ish k f act|p| |rate|u act]; try reflexivity;
    rewrite !bind_readVar, Hv;
    (destruct (kernel l) as [i|]; [|reflexivity]);
    (destruct (vars e2 !! i); [|reflexivity]);
    rewrite !bind_readVar, Hv;
    (destruct (bias l) as [i'|]; [|reflexivity]);
    destruct (vars e2 !! i'); reflexivity.
Qed.

Lemma forward_inference_engine (ls : list Layer) :
  forall (x : Array) (e : Engine), snd (forward false ls x e) = e.
Proof.
  induction ls as [|l ls IH]; intros x e; [reflexivity|].
  simpl. unfold bind.
  pose proof (call_inference_engine l x e) as Hc.
  destruct (call false l x e) as [[y|msg] e1]; simpl in Hc; subst e1.
  - apply IH.
  - reflexivity.
Qed.

Lemma forward_inference_vars (ls : list Layer) :
  forall (x : Array) (e1 e2 : Engine),
    vars e1 = vars e2 ->
    fst (forward false ls x e1) = fst (forward false ls x e2).
Proof.
  induction ls as [|l ls IH]; intros x e1 e2 Hv; [reflexivity|].
  simpl. unfold bind.
  pose proof (call_inference_engine l x e1) as H1.
  pose proof (call_inference_engine l x e2) as H2.
  pose proof (call_inference_vars l x e1 e2 Hv) as H3.
  destruct (call false l x e1) as [[y1|m1] e1'];
    destruct (call false l x e2) as [[y2|m2] e2'];
    simpl in H1, H2, H3; subst; try discriminate.
  - injection H3 as ->. now apply IH.
  - exact H3.
Qed.

Lemma forward_app (training : bool) (ls1 ls2 : list Layer) :
  forall (x : Array) (e : Engine),
    forward training (ls1 ++ ls2) x e
    = bind (forward training ls1 x) (forward training ls2) e.
Proof.
  induction ls1 as [|l ls1 IH]; intros x e; simpl.
  - reflexivity.
  - unfold bind. destruct (call training l x e) as [[y|msg] e1].
    + rewrite IH. reflexivity.
    + reflexivity.
Qed.

Lemma bind_forward_app {B} (training : bool) (ls1 ls2 : list Layer)
  (x : Array) (k : Array -> M B) (e : Engine) :
  bind (forward training (ls1 ++ ls2) x) k e
  = bind (forward training ls1 x) (fun y => bind (forward training ls2 y) k) e.
Proof.
  unfold bind at 1. rewrite forward_app. unfold bind.
  destruct (forward training ls1 x e) as [[y|msg] e1]; reflexivity.
Qed.

(** A well-built layer accepts an input of the shape it was built for. *)
Lemma call_shape (l : Layer) (x : Array) (e : Engine) (b : Z) (sh sh' : list Z) :
  layer_ok (vars e) l sh ->
  computeOutputShape (config l) sh = Some sh' ->
  dims x = b :: sh ->
  exists y, call false l x e = (Ok y, e) /\ dims y = b :: sh'.
Proof.
  unfold layer_ok, call. intros Hok Hc Hd.
  destruct (config l) as [ish k f act|p| |rate|u act]; simpl in Hc, Hok.
  - destruct sh as [|h [|w [|c [|]]]]; try discriminate.
    destruct Hok as (ki & bi & K & B & Hk & Hb & HK & Hs & HB).
    destruct ((0 <? h - k + 1) && (0 <? w - k + 1)) eqn:Eb; [|discriminate].
    injection Hc as <-.
    rewrite bind_readVar, Hk, HK, bind_readVar, Hb, HB.
    unfold lift, conv2dCall. rewrite Hd, Eb. cbn [negb].
    rewrite bool_decide_eq_true_2 by exact Hs. cbn [negb].
    eexists. split; reflexivity.
  - destruct sh as [|h [|w [|c [|]]]]; try discriminate.
    destruct ((0 <? (h - p) / p + 1) && (0 <? (w - p) / p + 1)) eqn:Eb;
      [|discriminate].
    injection Hc as <-. unfold lift, maxPooling2dCall. rewrite Hd, Eb.
    cbn [negb]. eexists. split; reflexivity.
  - destruct sh as [|h sh]; [discriminate|]. injection Hc as <-.
    unfold lift, flattenCall. rewrite Hd. eexists. split; reflexivity.
  - injection Hc as <-. exists x. split; [reflexivity|exact Hd].
  - destruct sh as [|n [|]]; try discriminate. injection Hc as <-.
    destruct Hok as (ki & bi & K & B & Hk & Hb & HK & Hs & HB).
    rewrite bind_readVar, Hk, HK, bind_readVar, Hb, HB.
    unfold lift, denseCall. rewrite Hd.
    rewrite bool_decide_eq_true_2 by exact Hs. cbn [negb].
    eexists. split; reflexivity.
Qed.

Lemma forward_shape (ls : list Layer) :
  forall (x : Array) (e : Engine) (b : Z) (sh : list Z),
    layers_ok (vars e) ls sh ->
    dims x = b :: sh ->
    exists y sh',
      forward false ls x e = (Ok y, e) /\
      outputShape (map config ls) sh = Some sh' /\ dims y = b :: sh'.
Proof.
  induction ls as [|l ls IH]; intros x e b sh Hok Hd.
  - exists x, sh. repeat split; auto.
  - destruct Hok as (sh1 & Hc & Hl & Hr).
    destruct (call_shape l x e b sh sh1 Hl Hc Hd) as (y1 & Hy1 & Hd1).
    destruct (IH y1 e b sh1 Hr Hd1) as (y & sh' & Hy & Ho & Hdy).
    exists y, sh'. simpl. erewrite bind_ok by exact Hy1. rewrite Hc.
    repeat split; auto.
Qed.

(** ** Softmax over two logits *)

Lemma softmax_pair (z0 z1 : R) :
  activate softmax 2 [z0; z1]
  = [ (exp (z0 - Rmax z1 z0)
       / (exp (z0 - Rmax z1 z0) + (exp (z1 - Rmax z1 z0) + 0)))%R;
      (exp (z1 - Rmax z1 z0)
       / (exp (z0 - Rmax z1 z0) + (exp (z1 - Rmax z1 z0) + 0)))%R ].
Proof. reflexivity. Qed.

Lemma softmax_pair_probabilities (z0 z1 : R) :
  exists p0 p1 : R,
    activate softmax 2 [z0; z1] = [p0; p1] /\
    (0 <= p0 <= 1)%R /\ (0 <= p1 <= 1)%R /\ (p0 + p1 = 1)%R.
Proof.
  rewrite softmax_pair.
  set (a := exp (z0 - Rmax z1 z0)). set (b := exp (z1 - Rmax z1 z0)).
  assert (Ha : (0 < a)%R) by apply exp_pos.
  assert (Hb : (0 < b)%R) by apply exp_pos.
  assert (Hs : (0 < a + (b + 0))%R) by lra.
  eexists _, _. split; [reflexivity|].
  assert (H0 : (0 <= a / (a + (b + 0)) <= 1)%R).
  { split.
    - apply Rlt_le, Rdiv_lt_0_compat; lra.
    - apply (Rmult_le_reg_r (a + (b + 0))); [lra|].
      unfold Rdiv. rewrite Rmult_assoc, Rinv_l by lra. lra. }
  assert (H1 : (0 <= b / (a + (b + 0)) <= 1)%R).
  { split.
    - apply Rlt_le, Rdiv_lt_0_compat; lra.
    - apply (Rmult_le_reg_r (a + (b + 0))); [lra|].
      unfold Rdiv. rewrite Rmult_assoc, Rinv_l by lra. lra. }
  split; [exact H0|]. split; [exact H1|]. field. lra.
Qed.

(** ** [predict] on a model built by [loadModel] *)

Lemma layers_ok_app (vs : gmap nat (Tensor R)) (l1 l2 : list Layer) :
  forall sh,
    layers_ok vs (l1 ++ l2) sh ->
    exists sh1,
      outputShape (map config l1) sh = Some sh1 /\
      layers_ok vs l1 sh /\ layers_ok vs l2 sh1.
Proof.
  induction l1 as [|l l1 IH]; intros sh H; simpl in *.
  - exists sh. auto.
  - destruct H as (sh' & Hc & Hl & Hr).
    destruct (IH sh' Hr) as (sh1 & Ho & H1 & H2).
    exists sh1. rewrite Hc. split; [exact Ho|]. split; [|exact H2].
    exists sh'. auto.
Qed.

Lemma predict_spec (m : LayersModel) (x : Tensor spec_float) (e : Engine) :
  ready m e -> tid x ∈ live e -> shape x = [1; 224; 224; 3] ->
  exists p0 p1 : R,
    predict false m x e = (Ok (mkTensor (next_id e) [1; 2] [p0; p1]), afterPredict e) /\
    (0 <= p0 <= 1)%R /\ (0 <= p1 <= 1)%R /\ (p0 + p1 = 1)%R.
Proof.
  intros (Hc & Hb & Hok) Hlive Hshape.
  change loadModel_layers
    with (firstn 10 loadModel_layers ++ [dense 2 softmax]) in Hc.
  apply map_eq_app in Hc as (ls & last & Hls & Hc1 & Hc2).
  destruct last as [|l [|? ?]]; try discriminate. injection Hc2 as Hl.
  rewrite Hls in Hok.
  apply layers_ok_app in Hok as (sh1 & Ho & Hok1 & Hok2).
  rewrite Hc1 in Ho. injection Ho as <-.
  destruct Hok2 as (sh2 & _ & Hlast & _).
  unfold layer_ok in Hlast. rewrite Hl in Hlast. cbn [weightShapes] in Hlast.
  destruct Hlast as (ki & bi & K & B & Hk & Hbi & HK & Hs & HB).
  unfold predict. cbv zeta.
  set (e1 := countPass e).
  erewrite bind_ok by (apply use_live; exact Hlive).
  rewrite Hshape, Hb. rewrite bool_decide_eq_true_2 by reflexivity. cbn [negb].
  set (x0 := mkArray _ _).
  destruct (forward_shape ls x0 e1 1 [224; 224; 3] Hok1 eq_refl)
    as (y & sh' & Hy & Ho & Hd).
  rewrite Hc1 in Ho. injection Ho as <-.
  rewrite Hls, bind_forward_app.
  erewrite bind_ok by exact Hy. cbn [forward].
  erewrite bind_ok.
  2:{ erewrite bind_ok; [reflexivity|].
      unfold call. rewrite Hl.
      rewrite bind_readVar, Hk. cbn [vars e1 countPass]. rewrite HK.
      rewrite bind_readVar, Hbi. cbn [vars e1 countPass]. rewrite HB.
      unfold lift, denseCall. rewrite Hd.
      rewrite bool_decide_eq_true_2 by exact Hs. cbn [negb]. reflexivity. }
  cbn [dims elems]. change (seqZ 0 (1 * 2)) with [0; 1]. cbn [map].
  match goal with
  | |- context [activate softmax 2 [?a; ?b]] =>
      destruct (softmax_pair_probabilities a b) as (p0 & p1 & Hp & H0 & H1 & Hsum)
  end.
  rewrite Hp. exists p0, p1. split; [reflexivity|]. auto.
Qed.

(** [predict], with the engine it leaves made explicit. *)
Lemma predict_unfold (fault : bool) (m : LayersModel) (x : Tensor spec_float)
  (e : Engine) :
  predict fault m x e
  = if fault then (Throw "backend failure", countPass e)
    else if decide (tid x ∈ live e)
    then match shape x with
         | _ :: sh =>
             if negb (bool_decide (sh = batchInputShape m))
             then (Throw "expected input to have the model input shape", countPass e)
             else match fst (forward false (layers m)
                               (mkArray (shape x) (map F32.to_R (values x)))
                               (countPass e)) with
                  | Ok y => (Ok (mkTensor (next_id e) (dims y) (elems y)), afterPredict e)
                  | Throw msg => (Throw msg, countPass e)
                  end
         | [] => (Throw "expected input to have 4 dimension(s)", countPass e)
         end
    else (Throw "Tensor is disposed.", countPass e).
Proof.
  unfold predict. cbv zeta. destruct fault; [reflexivity|].
  unfold bind at 1, use. cbn [live countPass].
  destruct (decide (tid x ∈ live e)); [|reflexivity].
  destruct (shape x) as [|b sh]; [reflexivity|].
  destruct (negb (bool_decide (sh = batchInputShape m))); [reflexivity|].
  unfold bind.
  pose proof (forward_inference_engine (layers m)
                (mkArray (b :: sh) (map F32.to_R (values x))) (countPass e)) as He.
  destruct (forward false (layers m) _ (countPass e)) as [[y|msg] e1];
    simpl in He; subst e1; reflexivity.
Qed.

(** Whatever happens, [predict] either raises after counting the pass or
    hands back one new tensor. *)
Lemma predict_engine (fault : bool) (m : LayersModel) (x : Tensor spec_float)
  (e : Engine) :
  (exists msg, predict fault m x e = (Throw msg, countPass e)) \/
  (exists y, predict fault m x e = (Ok y, afterPredict e) /\ tid y = next_id e).
Proof.
  rewrite predict_unfold. destruct fault; [left; eauto|].
  destruct (decide (tid x ∈ live e)); [|left; eauto].
  destruct (shape x) as [|b sh]; [left; eauto|].
  destruct (negb (bool_decide (sh = batchInputShape m))); [left; eauto|].
  destruct (fst (forward false (layers m) _ (countPass e))) as [y|msg];
    [right|left]; eauto.
Qed.

(** C3. Calling [predict] twice with the same model and the same tensor
    gives the same output (or the same exception), and the variables and
    the generator state are after the two calls what they were before:
    the pass reads the engine through its variables only. *)
Theorem predict_idempotent (fault : bool) (m : LayersModel)
  (x : Tensor spec_float) (e : Engine) :
  same_output (fst (predict fault m x e))
              (fst (predict fault m x (snd (predict fault m x e)))) /\
  vars (snd (predict fault m x (snd (predict fault m x e)))) = vars e /\
  rng (snd (predict fault m x (snd (predict fault m x e)))) = rng e.
Proof.
  assert (Hstate : forall e0,
             vars (snd (predict fault m x e0)) = vars e0 /\
             rng (snd (predict fault m x e0)) = rng e0 /\
             (tid x ∈ live e0 -> tid x ∈ live (snd (predict fault m x e0))) /\
             (tid x ∈ live (snd (predict fault m x e0)) ->
              tid x ∈ live e0 \/ is_Ok_tensor (fst (predict fault m x e0)))).
  { intros e0.
    destruct (predict_engine fault m x e0) as [(msg & ->)|(y & -> & _)];
      cbn [fst snd vars rng live countPass afterPredict is_Ok_tensor].
    - repeat split; auto.
    - repeat split; auto. intros H. now apply elem_of_union_r. }
  destruct (Hstate e) as (Hv & Hr & Hl & Hl').
  destruct (Hstate (snd (predict fault m x e))) as (Hv2 & Hr2 & _).
  split; [|split; congruence].
  set (e' := snd (predict fault m x e)) in *.
  assert (Hlive : tid x ∈ live e <-> tid x ∈ live e').
  { split; [exact Hl|]. intros H. destruct (Hl' H) as [?|Hok]; [assumption|].
    subst e'. revert Hok. rewrite predict_unfold. destruct fault; [easy|].
    destruct (decide (tid x ∈ live e)); easy. }
  rewrite !predict_unfold. destruct fault; [reflexivity|].
  destruct (decide (tid x ∈ live e)) as [Hin|Hout];
    destruct (decide (tid x ∈ live e')) as [Hin'|Hout']; try tauto;
    [|reflexivity].
  destruct (shape x) as [|b sh]; [reflexivity|].
  destruct (negb (bool_decide (sh = batchInputShape m))); [reflexivity|].
  rewrite (forward_inference_vars (layers m) _ (countPass e') (countPass e))
    by (cbn [vars countPass]; exact Hv).
  destruct (fst (forward false (layers m) _ (countPass e))) as [y|msg];
    cbn [fst same_output shape values]; auto.
Qed.

(** ** The engine across one analysis *)

Lemma engine_ok_grown (k : nat) (e e' : Engine) :
  engine_ok e -> grown k e e' -> engine_ok e'.
Proof.
  intros [Hl Hv] (Hn & Hlive & Hvars & _). split.
  - intros i Hi. rewrite Hlive in Hi. rewrite Hn.
    apply elem_of_union in Hi as [Hi|Hi].
    + apply elem_of_list_to_set, elem_of_seq in Hi. lia.
    + apply Hl in Hi. lia.
  - intros i Hi. rewrite Hvars in Hi. rewrite Hlive.
    apply elem_of_union_r. now apply Hv.
Qed.

Lemma engine_ok_countPass (e : Engine) : engine_ok e -> engine_ok (countPass e).
Proof. intros [Hl Hv]. split; cbn [countPass next_id live vars]; auto. Qed.

Lemma engine_ok_afterPredict (e : Engine) :
  engine_ok e -> engine_ok (afterPredict e).
Proof.
  intros [Hl Hv]. split; cbn [afterPredict next_id live vars].
  - intros i Hi. apply elem_of_union in Hi as [Hi|Hi].
    + apply elem_of_singleton in Hi. lia.
    + apply Hl in Hi. lia.
  - intros i Hi. apply elem_of_union_r. now apply Hv.
Qed.

Lemma engine_ok_dispose {A} (t : Tensor A) (e : Engine) :
  engine_ok e -> engine_ok (dispose t e).
Proof.
  intros [Hl Hv]. split; cbn [dispose next_id live vars].
  - intros i Hi. apply elem_of_difference in Hi as [Hi _]. now apply Hl.
  - intros i Hi. destruct (decide (i = tid t)) as [->|Hne].
    + rewrite lookup_delete_eq in Hi. now destruct Hi.
    + rewrite lookup_delete_ne in Hi by congruence.
      apply elem_of_difference. split; [now apply Hv|].
      rewrite elem_of_singleton. exact Hne.
Qed.

Lemma pixelsToTensor_empty (img : ImageData) (e : Engine) :
  width img <= 0 \/ height img <= 0 ->
  pixelsToTensor img e = (Throw "IndexSizeError", e).
Proof.
  intros H. unfold pixelsToTensor, fromPixels.
  assert (Hb : (width img <=? 0) || (height img <=? 0) = true).
  { apply orb_true_iff. destruct H; [left|right]; now apply Z.leb_le. }
  rewrite Hb. reflexivity.
Qed.

(** [preprocessImage] either resolves to the tensor of the contract, five
    tensors later, or stays pending with the engine untouched. *)
Lemma preprocessImage_cases (decode : string -> option ImageData) (src : string)
  (e : Engine) :
  (exists img t e',
      decode src = Some img /\ 0 < width img /\ 0 < height img /\
      preprocessImage decode src e = (Resolved t, e') /\
      tid t = (4 + next_id e)%nat /\ shape t = [1; 224; 224; 3] /\
      grown 5 e e') \/
  ((decode src = None \/
    exists img, decode src = Some img /\ (width img <= 0 \/ height img <= 0)) /\
   preprocessImage decode src e = (Pending, e)).
Proof.
  unfold preprocessImage. destruct (decode src) as [img|] eqn:Ed.
  - destruct (Z_lt_le_dec 0 (width img)) as [Hw|Hw];
      [destruct (Z_lt_le_dec 0 (height img)) as [Hh|Hh]|].
    + destruct (pixelsToTensor_ok img e Hw Hh) as (t & e' & Hrun & Ht & Hs & _ & Hg).
      left. exists img, t, e'. rewrite Hrun. repeat split; auto; apply Hg.
    + right. rewrite pixelsToTensor_empty by auto. split; [right; eauto|reflexivity].
    + right. rewrite pixelsToTensor_empty by auto. split; [right; eauto|reflexivity].
  - right. split; [left|]; reflexivity.
Qed.

(** The [try] block either raises, having released nothing, or publishes a
    result and releases the image tensor and the output tensor. *)
Lemma analyzeBody_cases (env : Env) (m : LayersModel)
  (t : Tensor spec_float) (s : State) (e : Engine) :
  (exists msg e',
      analyzeBody env m t s e = (Throw msg, e') /\
      (e' = countPass e \/ e' = afterPredict e)) \/
  (exists y,
      predict (backend_fault env) m t e = (Ok y, afterPredict e) /\
      tid y = next_id e /\
      analyzeBody env m t s e
      = (Ok (setPrediction (Some (makeResult (values y) (random env))) s),
         dispose y (dispose t (afterPredict e)))).
Proof.
  unfold analyzeBody.
  destruct (predict_engine (backend_fault env) m t e) as [(msg & ->)|(y & -> & Hy)].
  - left. eauto.
  - unfold dataOf. destruct (data_fault env).
    + left. eexists _, _. split; [reflexivity|auto].
    + erewrite bind_ok
        by (apply use_live; rewrite Hy; cbn [live afterPredict]; apply fresh_in).
      right. exists y. auto.
Qed.

Lemma analyzeECG_cases (env : Env) (w : World) (src : string) (m : LayersModel) :
  truthy (imagePreview (ui w)) = Some src ->
  model (ui w) = Some m ->
  suspended env w \/ raised env w m \/ published env w m.
Proof.
  intros Hsrc Hm. unfold suspended, raised, published, analyzeECG.
  rewrite Hsrc, Hm.
  destruct (preprocessImage_cases (decode env) src (engine w))
    as [(img & t & e1 & _ & _ & _ & -> & Ht & Hs & Hg)|(_ & ->)];
    [|left; reflexivity].
  right.
  destruct (analyzeBody_cases env m t (setLoading true (ui w)) e1)
    as [(msg & e2 & Hb & He2)|(y & Hp & Hy & Hb)]; rewrite Hb.
  - left. exists t, e1, msg, e2. split; [exact Hg|]. repeat split; auto.
  - right. exists t, e1, y. split; [exact Hg|]. repeat split; auto.
Qed.

Lemma analyzeECG_guard (env : Env) (w : World) :
  truthy (imagePreview (ui w)) = None \/ model (ui w) = None ->
  analyzeECG env w = (Resolved tt, w).
Proof.
  intros H. unfold analyzeECG.
  destruct H as [-> | ->]; [reflexivity|].
  now destruct (truthy (imagePreview (ui w))).
Qed.

(** ** The model across a session *)

(** An analysis, however it ends, keeps the model, the picture, the
    variables and the generator state. *)
Lemma analyzeECG_stable (env : Env) (w : World) :
  engine_ok (engine w) ->
  model (ui (snd (analyzeECG env w))) = model (ui w) /\
  imagePreview (ui (snd (analyzeECG env w))) = imagePreview (ui w) /\
  modelLoading (ui (snd (analyzeECG env w))) = modelLoading (ui w) /\
  vars (engine (snd (analyzeECG env w))) = vars (engine w) /\
  rng (engine (snd (analyzeECG env w))) = rng (engine w) /\
  engine_ok (engine (snd (analyzeECG env w))).
Proof.
  intros Hok.
  destruct (truthy (imagePreview (ui w))) as [src|] eqn:Hsrc;
    [|rewrite analyzeECG_guard by auto; auto 10].
  destruct (model (ui w)) as [m|] eqn:Hm;
    [|rewrite analyzeECG_guard by auto; auto 10].
  destruct (analyzeECG_cases env w src m Hsrc Hm)
    as [->|[(t & e1 & msg & e2 & Hg & Ht & _ & He2 & ->)
           |(t & e1 & y & Hg & Ht & _ & _ & Hy & ->)]];
    cbn [snd ui engine model imagePreview modelLoading setLoading setPrediction].
  - auto 10.
  - pose proof (engine_ok_grown 5 _ _ Hok Hg) as Hok1.
    destruct Hg as (_ & _ & Hv & Hr & _).
    destruct He2 as [-> | ->]; cbn [vars rng countPass afterPredict];
      repeat split; auto;
      first [apply (engine_ok_countPass _ Hok1) | apply (engine_ok_afterPredict _ Hok1)].
  - pose proof (engine_ok_grown 5 _ _ Hok Hg) as Hok1.
    destruct Hg as (Hn & _ & Hv & Hr & _).
    repeat split; auto.
    + cbn [dispose vars afterPredict]. rewrite Hv, Hy, Ht, Hn.
      rewrite (delete_id (vars (engine w))) by (apply engine_ok_no_var; [auto|lia]).
      apply delete_id, engine_ok_no_var; [auto|lia].
    + apply (engine_ok_dispose y (dispose t (afterPredict e1))),
        (engine_ok_dispose t (afterPredict e1)), (engine_ok_afterPredict _ Hok1).
    + apply (engine_ok_dispose y (dispose t (afterPredict e1))),
        (engine_ok_dispose t (afterPredict e1)), (engine_ok_afterPredict _ Hok1).
Qed.

Lemma step_stable (w : World) (ev : Event) :
  engine_ok (engine w) ->
  model (ui (step w ev)) = model (ui w) /\
  modelLoading (ui (step w ev)) = modelLoading (ui w) /\
  vars (engine (step w ev)) = vars (engine w) /\
  rng (engine (step w ev)) = rng (engine w) /\
  engine_ok (engine (step w ev)).
Proof.
  intros Hok. destruct ev as [file|env]; cbn [step].
  - destruct (uploadEnabled (ui w)); [|auto].
    destruct file; cbn; auto.
  - destruct (analyzeEnabled (ui w)); [|auto].
    destruct (analyzeECG_stable env w Hok) as (? & ? & ? & ? & ? & ?). auto.
Qed.

Lemma run_stable (evs : list Event) :
  forall w,
    engine_ok (engine w) ->
    model (ui (foldl step w evs)) = model (ui w) /\
    modelLoading (ui (foldl step w evs)) = modelLoading (ui w) /\
    vars (engine (foldl step w evs)) = vars (engine w) /\
    rng (engine (foldl step w evs)) = rng (engine w) /\
    engine_ok (engine (foldl step w evs)).
Proof.
  induction evs as [|ev evs IH]; intros w Hok; cbn [foldl]; [auto|].
  destruct (step_stable w ev Hok) as (Hm & Hml & Hv & Hr & Hok').
  destruct (IH _ Hok') as (Hm2 & Hml2 & Hv2 & Hr2 & Hok2).
  repeat split; try congruence; apply Hok2.
Qed.

Lemma mount_failed (init : nat -> Z -> R) :
  mount true init
  = mkWorld (mkState None None None false false) (engine initial)
            ["Error loading model: backend initialisation failed"] [].
Proof. reflexivity. Qed.

Lemma mount_engine_ok (fault : bool) (init : nat -> Z -> R) :
  engine_ok (engine (mount fault init)).
Proof.
  destruct fault.
  - rewrite mount_failed. exact engine_ok_initial.
  - destruct (mount_spec init) as (m & _ & _ & _ & _ & _ & Hok & _). exact Hok.
Qed.

(** C8. The session builds its model once, in the mount effect, and no
    later event changes it: after any sequence of uploads and analyses the
    page holds the model of the mount, the engine holds the same variables
    with the same contents, every one of them still live, and the generator
    state is untouched. *)
Theorem model_never_mutated (fault : bool) (init : nat -> Z -> R)
  (evs : list Event) :
  model (ui (session fault init evs)) = model (ui (mount fault init)) /\
  vars (engine (session fault init evs)) = vars (engine (mount fault init)) /\
  (forall i, is_Some (vars (engine (mount fault init)) !! i) ->
             i ∈ live (engine (session fault init evs))) /\
  rng (engine (session fault init evs)) = rng (engine (mount fault init)).
Proof.
  unfold session.
  destruct (run_stable evs (mount fault init) (mount_engine_ok fault init))
    as (Hm & _ & Hv & Hr & Hok).
  repeat split; auto.
  intros i Hi. apply Hok. now rewrite Hv.
Qed.

(** ** Analyses on a mounted page *)

Lemma size_fresh_block (n k : nat) (s : gset nat) :
  (forall i, i ∈ s -> (i < n)%nat) ->
  size (list_to_set (seq n k) ∪ s : gset nat) = (k + size s)%nat.
Proof.
  intros Hs. rewrite size_union.
  - rewrite size_list_to_set by apply NoDup_seq. now rewrite length_seq.
  - intros x Hx1 Hx2. apply elem_of_list_to_set, elem_of_seq in Hx1.
    apply Hs in Hx2. lia.
Qed.

Lemma grown_live_last (k : nat) (e e' : Engine) :
  grown (S k) e e' -> (k + next_id e)%nat ∈ live e'.
Proof.
  intros (_ & Hl & _). rewrite Hl. apply elem_of_union_l.
  apply elem_of_list_to_set, elem_of_seq. lia.
Qed.

(** The backend raises: the [catch] block runs, and the five tensors of
    [preprocessImage] are all still registered. *)
Lemma analyzeECG_backend_fault (env : Env) (w : World) (src : string)
  (m : LayersModel) (img : ImageData) :
  truthy (imagePreview (ui w)) = Some src ->
  model (ui w) = Some m ->
  decode env src = Some img -> 0 < width img -> 0 < height img ->
  backend_fault env = true ->
  exists e1,
    grown 5 (engine w) e1 /\
    analyzeECG env w
    = (Resolved tt,
       mkWorld (setLoading false (setLoading true (ui w))) (countPass e1)
               (console w ++ ["Error analyzing ECG: backend failure"])
               (alerts w ++ ["Error analyzing ECG image. Please try again."])).
Proof.
  intros Hsrc Hm Hd Hw Hh Hf. unfold analyzeECG. rewrite Hsrc, Hm.
  destruct (pixelsToTensor_ok img (engine w) Hw Hh) as (t & e1 & Hrun & _ & _ & _ & Hg).
  unfold preprocessImage. rewrite Hd, Hrun.
  unfold analyzeBody. rewrite predict_unfold, Hf.
  exists e1. split; [exact Hg|reflexivity].
Qed.

(** Nothing fails: the result is published and the two tensors the handler
    holds are released. *)
Lemma analyzeECG_publishes (env : Env) (w : World) (src : string)
  (m : LayersModel) (img : ImageData) :
  truthy (imagePreview (ui w)) = Some src ->
  model (ui w) = Some m ->
  ready m (engine w) ->
  decode env src = Some img -> 0 < width img -> 0 < height img ->
  backend_fault env = false -> data_fault env = false ->
  exists t e1 p0 p1,
    grown 5 (engine w) e1 /\ tid t = (4 + next_id (engine w))%nat /\
    (0 <= p0 <= 1)%R /\ (0 <= p1 <= 1)%R /\ (p0 + p1 = 1)%R /\
    predict false m t e1 = (Ok (mkTensor (next_id e1) [1; 2] [p0; p1]), afterPredict e1) /\
    analyzeECG env w
    = (Resolved tt,
       mkWorld (setLoading false
                  (setPrediction (Some (makeResult [p0; p1] (random env)))
                     (setLoading true (ui w))))
               (dispose (mkTensor (next_id e1) [1; 2] [p0; p1])
                        (dispose t (afterPredict e1)))
               (console w) (alerts w)).
Proof.
  intros Hsrc Hm (Hc & Hb & Hl) Hd Hw Hh Hbf Hdf.
  unfold analyzeECG. rewrite Hsrc, Hm.
  destruct (pixelsToTensor_ok img (engine w) Hw Hh)
    as (t & e1 & Hrun & Ht & Hs & _ & Hg).
  unfold preprocessImage. rewrite Hd, Hrun.
  assert (Hready : ready m e1).
  { destruct Hg as (_ & _ & Hv & _). unfold ready. rewrite Hv. auto. }
  assert (Hlive : tid t ∈ live e1).
  { rewrite Ht. exact (grown_live_last 4 _ _ Hg). }
  destruct (predict_spec m t e1 Hready Hlive Hs) as (p0 & p1 & Hp & H0 & H1 & Hsum).
  unfold analyzeBody. rewrite Hbf, Hp, Hdf. unfold dataOf.
  erewrite bind_ok
    by (apply use_live; cbn [tid live afterPredict]; apply fresh_in).
  exists t, e1, p0, p1. split; [exact Hg|]. repeat split; auto; tauto.
Qed.

(** The page after the mount and the upload of a picture. *)
Lemma session_uploaded (init : nat -> Z -> R) (src : string) :
  exists m,
    session false init [Upload (Some src)]
    = mkWorld (mkState (Some m) (Some src) None false false)
              (engine (mount false init)) [] [] /\
    ready m (engine (mount false init)).
Proof.
  destruct (mount_spec init) as (m & _ & Hc & Hb & _ & Hl & _ & Hui & Hco & Hal).
  exists m. split; [|unfold ready; auto].
  unfold session. cbn [foldl step]. rewrite Hui. cbn [uploadEnabled modelLoading negb].
  unfold handleImageUpload. rewrite Hui, Hco, Hal. reflexivity.
Qed.

Lemma analyzeEnabled_true (s : State) (src : string) (m : LayersModel) :
  truthy (imagePreview s) = Some src -> model s = Some m -> loading s = false ->
  analyzeEnabled s = true.
Proof.
  intros Hs Hm Hl. unfold analyzeEnabled. rewrite Hs, Hm, Hl.
  rewrite !bool_decide_eq_true_2 by eauto. reflexivity.
Qed.

(** After a successful analysis four tensors of [preprocessImage] stay
    registered: the handler releases only the last of the five. *)
Lemma analyzeECG_success_leaks_four (env : Env) (w : World) (src : string)
  (m : LayersModel) (img : ImageData) :
  engine_ok (engine w) ->
  truthy (imagePreview (ui w)) = Some src ->
  model (ui w) = Some m ->
  ready m (engine w) ->
  decode env src = Some img -> 0 < width img -> 0 < height img ->
  backend_fault env = false -> data_fault env = false ->
  numTensors (engine (snd (analyzeECG env w))) = (4 + numTensors (engine w))%nat.
Proof.
  intros Hok Hsrc Hm Hr Hd Hw Hh Hbf Hdf.
  destruct (analyzeECG_publishes env w src m img Hsrc Hm Hr Hd Hw Hh Hbf Hdf)
    as (t & e1 & p0 & p1 & Hg & Ht & _ & _ & _ & _ & ->).
  destruct Hg as (Hn & Hl & _). destruct Hok as [Hlt _].
  unfold numTensors. cbn [snd engine dispose live afterPredict tid].
  rewrite <- (size_fresh_block (next_id (engine w)) 4 (live (engine w)) Hlt).
  f_equal. apply set_eq. intros x. rewrite Hl, Ht, Hn.
  rewrite !elem_of_difference, !elem_of_union, !elem_of_singleton.
  rewrite !elem_of_list_to_set, !elem_of_seq.
  split.
  - intros [[[?|[?|?]] ?] ?]; [lia|left; lia|right; assumption].
  - intros [Hx|Hx].
    + split; [split; [right; left; lia|lia]|lia].
    + pose proof (Hlt x Hx). split; [split; [right; right; exact Hx|lia]|lia].
Qed.

(** C5 (the code departs from the claim). An analysis in which the backend
    raises during the forward pass: the [catch] block runs and nothing is
    released; the image tensor and the four tensors made on the way to it
    stay registered, five more than before the call. An analysis in which
    nothing fails releases the image tensor and the output tensor only, and
    ends four tensors above the count before the call. *)
Theorem analyzeECG_leaks_tensors :
  let w := session false zeroInit [Upload (Some "ecg")] in
  let failed := step w (Analyze faultyEnv) in
  let succeeded := step w (Analyze calmEnv) in
  alerts failed = ["Error analyzing ECG image. Please try again."] /\
  numTensors (engine failed) = (numTensors (engine w) + 5)%nat /\
  (4 + next_id (engine w))%nat ∈ live (engine failed) /\
  alerts succeeded = [] /\
  numTensors (engine succeeded) = (numTensors (engine w) + 4)%nat.
Proof.
  cbv zeta.
  destruct (session_uploaded zeroInit "ecg") as (m & Hw & Hr).
  rewrite Hw. clear Hw.
  pose proof (mount_engine_ok false zeroInit) as Hok. revert Hok Hr.
  generalize (engine (mount false zeroInit)). intros e0 Hok Hr.
  set (w1 := mkWorld (mkState (Some m) (Some "ecg") None false false) e0 [] []).
  cbn [step]. erewrite analyzeEnabled_true by reflexivity.
  split; [|split; [|split]].
  - destruct (analyzeECG_backend_fault faultyEnv w1 "ecg" m (solidImage 1 1 0))
      as (e1 & Hg & ->); reflexivity.
  - destruct (analyzeECG_backend_fault faultyEnv w1 "ecg" m (solidImage 1 1 0))
      as (e1 & Hg & ->); try reflexivity.
    unfold numTensors. cbn [snd engine countPass live].
    destruct Hg as (_ & -> & _).
    rewrite size_fresh_block by apply Hok. cbn [engine w1]. lia.
  - destruct (analyzeECG_backend_fault faultyEnv w1 "ecg" m (solidImage 1 1 0))
      as (e1 & Hg & ->); try reflexivity.
    exact (grown_live_last 4 _ _ Hg).
  - split.
    + destruct (analyzeECG_publishes calmEnv w1 "ecg" m (solidImage 1 1 0))
        as (t & e1 & p0 & p1 & _ & _ & _ & _ & _ & _ & ->);
        try reflexivity. exact Hr.
    + rewrite (analyzeECG_success_leaks_four calmEnv w1 "ecg" m (solidImage 1 1 0));
        try reflexivity; [cbn [engine w1]; lia|exact Hok|exact Hr].
Qed.

Lemma session_snoc (fault : bool) (init : nat -> Z -> R) (evs : list Event)
  (ev : Event) :
  session fault init (evs ++ [ev]) = step (session fault init evs) ev.
Proof. unfold session. now rewrite foldl_app. Qed.

(** ** Failures of the forward pass *)

(** C6, as the code has it. Whenever the forward pass, or the reading of
    its output, raises, the handler completes: the user is told through one
    alert, the loading flag is cleared, the model and the picture stay, the
    result shown before (if any) is left as it was, exactly one forward
    pass was attempted, and the analyze button is enabled again. *)
Theorem failed_forward_pass_recovers (env : Env) (w : World) (src : string)
  (m : LayersModel) (t : Tensor spec_float) (e1 : Engine) (msg : string) :
  truthy (imagePreview (ui w)) = Some src ->
  model (ui w) = Some m ->
  preprocessImage (decode env) src (engine w) = (Resolved t, e1) ->
  fst (analyzeBody env m t (setLoading true (ui w)) e1) = Throw msg ->
  exists w',
    analyzeECG env w = (Resolved tt, w') /\
    prediction (ui w') = prediction (ui w) /\
    loading (ui w') = false /\
    model (ui w') = model (ui w) /\
    imagePreview (ui w') = imagePreview (ui w) /\
    alerts w' = alerts w ++ ["Error analyzing ECG image. Please try again."] /\
    forward_passes (engine w') = S (forward_passes (engine w)) /\
    analyzeEnabled (ui w') = true.
Proof.
  intros Hsrc Hm Hpre Hbody.
  assert (Hfp : forward_passes e1 = forward_passes (engine w)).
  { destruct (preprocessImage_cases (decode env) src (engine w))
      as [(img & t' & e1' & _ & _ & _ & Hpre' & _ & _ & Hg)|(_ & Hpre')];
      rewrite Hpre in Hpre'; [|discriminate].
    injection Hpre' as -> ->. apply Hg. }
  unfold analyzeECG. rewrite Hsrc, Hm, Hpre.
  destruct (analyzeBody_cases env m t (setLoading true (ui w)) e1)
    as [(msg' & e2 & Hb & He2)|(y & _ & _ & Hb)]; rewrite Hb in Hbody |- *;
    [|discriminate].
  eexists. split; [reflexivity|].
  cbn [ui engine alerts prediction loading model imagePreview setLoading].
  repeat split; auto.
  - destruct He2 as [-> | ->]; cbn [forward_passes countPass afterPredict];
      congruence.
  - eapply analyzeEnabled_true; cbn [imagePreview model loading]; eauto.
Qed.

Lemma failed_forward_pass_recovers_witness :
  exists m t e1 w',
    let w := mkWorld (mkState (Some m) (Some "ecg") None false false)
                     (engine (mount false zeroInit)) [] [] in
    preprocessImage (decode faultyEnv) "ecg" (engine w) = (Resolved t, e1) /\
    fst (analyzeBody faultyEnv m t (setLoading true (ui w)) e1)
    = Throw "backend failure" /\
    analyzeECG faultyEnv w = (Resolved tt, w') /\
    prediction (ui w') = prediction (ui w) /\
    loading (ui w') = false /\
    model (ui w') = model (ui w) /\
    imagePreview (ui w') = imagePreview (ui w) /\
    alerts w' = alerts w ++ ["Error analyzing ECG image. Please try again."] /\
    forward_passes (engine w') = S (forward_passes (engine w)) /\
    analyzeEnabled (ui w') = true.
Proof.
  destruct (mount_spec zeroInit) as (m & _).
  generalize (engine (mount false zeroInit)). intros e0.
  destruct (pixelsToTensor_ok (solidImage 1 1 0) e0) as (t & e1 & Hrun & _);
    [reflexivity..|].
  assert (Hpre : preprocessImage (decode faultyEnv) "ecg" e0 = (Resolved t, e1)).
  { unfold preprocessImage. cbn [decode faultyEnv onePixel]. now rewrite Hrun. }
  assert (Hbody : fst (analyzeBody faultyEnv m t
                         (setLoading true (mkState (Some m) (Some "ecg") None false false))
                         e1) = Throw "backend failure").
  { unfold analyzeBody. rewrite predict_unfold. reflexivity. }
  destruct (failed_forward_pass_recovers faultyEnv
              (mkWorld (mkState (Some m) (Some "ecg") None false false) e0 [] [])
              "ecg" m t e1 "backend failure" eq_refl eq_refl Hpre Hbody)
    as (w' & H).
  exists m, t, e1, w'. cbv zeta. split; [exact Hpre|]. split; [exact Hbody|].
  exact H.
Defined.

(** C6 fails as stated: a failed analysis does not reset what the user
    sees. After a successful analysis and then one in which the backend
    raises, the alert is shown and the result of the first analysis is
    still in place. *)
Lemma failed_analysis_keeps_previous_result :
  let w := session false zeroInit ([Upload (Some "ecg")] ++ [Analyze calmEnv]) in
  let w' := step w (Analyze faultyEnv) in
  alerts w' = ["Error analyzing ECG image. Please try again."] /\
  prediction (ui w') = prediction (ui w) /\
  prediction (ui w') <> None.
Proof.
  cbv zeta.
  rewrite (session_snoc false zeroInit [Upload (Some "ecg")] (Analyze calmEnv)).
  destruct (session_uploaded zeroInit "ecg") as (m & -> & Hr).
  revert Hr. generalize (engine (mount false zeroInit)). intros e0 Hr.
  set (w1 := mkWorld (mkState (Some m) (Some "ecg") None false false) e0 [] []).
  destruct (analyzeECG_publishes calmEnv w1 "ecg" m (solidImage 1 1 0))
    as (t & e1 & p0 & p1 & _ & _ & _ & _ & _ & _ & Hrun);
    try reflexivity; [exact Hr|].
  assert (Hstep : step w1 (Analyze calmEnv) = snd (analyzeECG calmEnv w1)).
  { cbn [step]. now erewrite analyzeEnabled_true by reflexivity. }
  rewrite Hstep, Hrun. cbn [snd step].
  erewrite analyzeEnabled_true by reflexivity.
  match goal with
  | |- context [analyzeECG faultyEnv ?w] =>
      destruct (analyzeECG_backend_fault faultyEnv w "ecg" m (solidImage 1 1 0))
        as (e2 & _ & ->); try reflexivity
  end.
  cbn. repeat split; discriminate.
Qed.

(** ** Failure of the construction *)

(** C7 fails as stated: when the backend cannot be initialised, [loadModel]
    completes normally; the page is left running without a model, with the
    upload button enabled and nothing shown to the user, and it accepts an
    upload. *)
Lemma construction_failure_goes_unnoticed :
  loadModel true zeroInit initial = (Resolved tt, mount true zeroInit) /\
  model (ui (mount true zeroInit)) = None /\
  uploadEnabled (ui (mount true zeroInit)) = true /\
  alerts (mount true zeroInit) = [] /\
  imagePreview (ui (session true zeroInit [Upload (Some "ecg")])) = Some "ecg".
Proof. repeat split; reflexivity. Qed.

Lemma run_without_model (evs : list Event) :
  forall w,
    model (ui w) = None -> prediction (ui w) = None ->
    model (ui (foldl step w evs)) = None /\
    prediction (ui (foldl step w evs)) = None /\
    modelLoading (ui (foldl step w evs)) = modelLoading (ui w) /\
    alerts (foldl step w evs) = alerts w /\
    console (foldl step w evs) = console w /\
    engine (foldl step w evs) = engine w.
Proof.
  induction evs as [|ev evs IH]; intros w Hm Hp; cbn [foldl]; [auto 10|].
  assert (Hstep : model (ui (step w ev)) = None /\
                  prediction (ui (step w ev)) = None /\
                  modelLoading (ui (step w ev)) = modelLoading (ui w) /\
                  alerts (step w ev) = alerts w /\
                  console (step w ev) = console w /\
                  engine (step w ev) = engine w).
  { destruct ev as [file|env]; cbn [step].
    - destruct (uploadEnabled (ui w)); [|auto 10].
      destruct file; cbn; auto 10.
    - unfold analyzeEnabled. rewrite Hm.
      rewrite (bool_decide_eq_false_2 (is_Some None)) by (intros [? ?]; discriminate).
      rewrite orb_true_r, andb_false_r. auto 10. }
  destruct Hstep as (Hm1 & Hp1 & Hl1 & Ha1 & Hc1 & He1).
  destruct (IH _ Hm1 Hp1) as (? & ? & ? & ? & ? & ?).
  repeat split; congruence.
Qed.

(** C7, as the code has it. When the construction of the model fails,
    [loadModel] catches the exception: it reports it on the console,
    clears the loading flag and completes normally, leaving no model. The
    page keeps running in that state: whatever the user does next, the
    upload button stays enabled, there is still no model, no analysis is
    started, no result and no alert is ever shown, and the engine is never
    used. *)
Theorem construction_failure_is_caught (init : nat -> Z -> R) (evs : list Event) :
  loadModel true init initial = (Resolved tt, mount true init) /\
  mount true init
  = mkWorld (mkState None None None false false) (engine initial)
            ["Error loading model: backend initialisation failed"] [] /\
  model (ui (session true init evs)) = None /\
  prediction (ui (session true init evs)) = None /\
  uploadEnabled (ui (session true init evs)) = true /\
  alerts (session true init evs) = [] /\
  console (session true init evs)
  = ["Error loading model: backend initialisation failed"] /\
  engine (session true init evs) = engine initial.
Proof.
  split; [reflexivity|]. split; [reflexivity|].
  unfold session. rewrite mount_failed.
  destruct (run_without_model evs
              (mkWorld (mkState None None None false false) (engine initial)
                       ["Error loading model: backend initialisation failed"] []))
    as (? & ? & Hl & ? & ? & ?); auto.
  unfold uploadEnabled. rewrite Hl. auto 10.
Qed.

(** ** Sessions on a mounted model *)

Lemma construction_failure_free_of_results (init : nat -> Z -> R)
  (evs : list Event) :
  prediction (ui (session true init evs)) = None /\
  model (ui (session true init evs)) = None.
Proof.
  unfold session. rewrite mount_failed.
  destruct (run_without_model evs
              (mkWorld (mkState None None None false false) (engine initial)
                       ["Error loading model: backend initialisation failed"] []))
    as (? & ? & _); auto.
Qed.

Lemma mounted_step (w : World) (m : LayersModel) (ev : Event) :
  mounted w m -> mounted (step w ev) m.
Proof.
  intros (Hm & (Hc & Hb & Hl) & Hok).
  destruct (step_stable w ev Hok) as (Hm' & _ & Hv & _ & Hok').
  split; [congruence|]. split; [|exact Hok'].
  unfold ready. rewrite Hv. auto.
Qed.

Lemma mounted_run (evs : list Event) :
  forall w m, mounted w m -> mounted (foldl step w evs) m.
Proof.
  induction evs as [|ev evs IH]; intros w m H; cbn [foldl]; [exact H|].
  apply IH. now apply mounted_step.
Qed.

Lemma mounted_mount (init : nat -> Z -> R) :
  exists m, mounted (mount false init) m.
Proof.
  destruct (mount_spec init) as (m & Hm & Hc & Hb & _ & Hl & Hok & _).
  exists m. unfold mounted, ready. auto.
Qed.

(** ** What is rendered *)

Lemma makeResult_consistent (predArray : list R) (rnd : nat -> spec_float) :
  (stemiDetected (makeResult predArray rnd) = true
   <-> (at_index 0 predArray 1 > 1 / 2)%R) /\
  confidence (makeResult predArray rnd)
  = (100 * Rmax (at_index 0 predArray 0) (at_index 0 predArray 1))%R.
Proof.
  unfold makeResult. cbn [stemiDetected confidence]. split.
  - apply bool_decide_eq_true.
  - rewrite Rmax_comm. apply Rmult_comm.
Qed.

Lemma dataOf_ok_inv (fault : bool) (y : Tensor R) (e e' : Engine) (l : list R) :
  dataOf fault y e = (Ok l, e') -> l = values y /\ e' = e.
Proof.
  unfold dataOf. destruct fault; [discriminate|].
  unfold bind, use. destruct (decide (tid y ∈ live e)); [|discriminate].
  intros [= <- <-]. auto.
Qed.

(** A result that appears with an event was published by an analysis, from
    the output of its forward pass. *)
Lemma step_result_origin (w : World) (ev : Event) (r : Result) :
  prediction (ui (step w ev)) = Some r ->
  prediction (ui w) = Some r \/
  exists env y,
    ev = Analyze env /\ analyzeEnabled (ui w) = true /\
    analysisOutput env w y /\ r = makeResult (values y) (random env).
Proof.
  destruct ev as [file|env]; cbn [step].
  - destruct (uploadEnabled (ui w)); [|auto].
    destruct file; cbn; [discriminate|auto].
  - destruct (analyzeEnabled (ui w)) eqn:Hen; [|auto].
    unfold analysisOutput, analyzeECG.
    destruct (truthy (imagePreview (ui w))) as [src|] eqn:Hsrc; [|auto].
    destruct (model (ui w)) as [m|] eqn:Hm; [|auto].
    destruct (preprocessImage (decode env) src (engine w)) as [[t|msg|] e1] eqn:Hpre;
      cbn [snd ui prediction setLoading]; auto.
    unfold analyzeBody.
    destruct (predict_engine (backend_fault env) m t e1) as [(msg & Hp)|(y & Hp & _)];
      rewrite Hp; cbn [snd ui prediction setLoading]; auto.
    destruct (dataOf (data_fault env) y (afterPredict e1)) as [[l|msg] e2] eqn:Hd;
      cbn [snd ui prediction setLoading setPrediction]; auto.
    destruct (dataOf_ok_inv _ _ _ _ _ Hd) as [-> ->].
    intros [= <-]. right. exists env, y. split; [reflexivity|].
    split; [reflexivity|]. split; [|reflexivity].
    exists src, m, t, e1. auto.
Qed.

Lemma run_result_origin (evs : list Event) :
  forall (w : World) (r : Result),
    prediction (ui (foldl step w evs)) = Some r ->
    prediction (ui w) = Some r \/
    exists evs1 env evs2 y,
      evs = evs1 ++ Analyze env :: evs2 /\
      analyzeEnabled (ui (foldl step w evs1)) = true /\
      analysisOutput env (foldl step w evs1) y /\
      prediction (ui (foldl step w (evs1 ++ [Analyze env]))) = Some r /\
      r = makeResult (values y) (random env).
Proof.
  induction evs as [|ev evs IH]; intros w r Hr; cbn [foldl] in Hr; [auto|].
  destruct (IH _ _ Hr) as [H|(evs1 & env & evs2 & y & -> & Hen & Hout & Hp & Hmk)].
  - destruct (step_result_origin w ev r H) as [?|(env & y & -> & Hen & Hout & Hmk)];
      [auto|].
    right. exists [], env, evs, y. cbn [app foldl]. auto.
  - right. exists (ev :: evs1), env, evs2, y. cbn [app foldl]. auto.
Qed.

(** On a mounted page the output of an analysis holds two entries. *)
Lemma analysisOutput_pair (env : Env) (w : World) (m : LayersModel) (y : Tensor R) :
  mounted w m -> analysisOutput env w y ->
  exists p0 p1 : R, values y = [p0; p1] /\ shape y = [1; 2].
Proof.
  intros (Hm & (Hc & Hb & Hl) & Hok) (src & m' & t & e1 & Hsrc & Hm' & Hpre & Hp & _).
  rewrite Hm in Hm'. injection Hm' as <-.
  destruct (preprocessImage_cases (decode env) src (engine w))
    as [(img & t' & e1' & _ & _ & _ & Hpre' & Ht & Hs & Hg)|(_ & Hpre')];
    rewrite Hpre in Hpre'; [|discriminate Hpre'].
  injection Hpre' as <- <-.
  destruct (backend_fault env).
  { rewrite predict_unfold in Hp. discriminate Hp. }
  assert (Hready : ready m e1).
  { destruct Hg as (_ & _ & Hv & _). unfold ready. rewrite Hv. auto. }
  assert (Hlive : tid t ∈ live e1).
  { rewrite Ht. exact (grown_live_last 4 _ _ Hg). }
  destruct (predict_spec m t e1 Hready Hlive Hs) as (p0 & p1 & Hp' & _).
  rewrite Hp' in Hp. injection Hp as <-. exists p0, p1. auto.
Qed.

(** C10. Every result the page renders was published by one analysis of
    the session: the analyze button was enabled, the picture then shown was
    preprocessed, the model ran its forward pass on that tensor, and the
    two entries [p0] and [p1] of the output were read. The STEMI flag of
    the result is set exactly when [p1 > 0.5] and its confidence is 100
    times the larger of [p0] and [p1]. *)
Theorem rendered_result_follows_probabilities (fault : bool)
  (init : nat -> Z -> R) (evs : list Event) (r : Result) :
  prediction (ui (session fault init evs)) = Some r ->
  exists evs1 env evs2 y p0 p1,
    evs = evs1 ++ Analyze env :: evs2 /\
    analyzeEnabled (ui (session fault init evs1)) = true /\
    analysisOutput env (session fault init evs1) y /\
    prediction (ui (session fault init (evs1 ++ [Analyze env]))) = Some r /\
    values y = [p0; p1] /\
    (stemiDetected r = true <-> (p1 > 1 / 2)%R) /\
    confidence r = (100 * Rmax p0 p1)%R.
Proof.
  intros Hr. destruct fault.
  { destruct (construction_failure_free_of_results init evs) as [Hn _].
    rewrite Hn in Hr. discriminate Hr. }
  unfold session in *.
  destruct (mounted_mount init) as (m & Hmt).
  destruct (run_result_origin evs _ r Hr)
    as [H|(evs1 & env & evs2 & y & Hevs & Hen & Hout & Hp & Hmk)].
  - exfalso. destruct (mount_spec init) as (m' & _ & _ & _ & _ & _ & _ & Hui & _).
    rewrite Hui in H. discriminate H.
  - destruct (analysisOutput_pair env _ m y (mounted_run evs1 _ m Hmt) Hout)
      as (p0 & p1 & Hv & _).
    exists evs1, env, evs2, y, p0, p1.
    split; [exact Hevs|]. split; [exact Hen|]. split; [exact Hout|].
    split; [exact Hp|]. split; [exact Hv|].
    rewrite Hmk, Hv. apply (makeResult_consistent [p0; p1]).
Qed.

Lemma rendered_result_follows_probabilities_witness :
  exists r evs1 env evs2 y p0 p1,
    prediction (ui (session false zeroInit ([Upload (Some "ecg")] ++ [Analyze calmEnv])))
    = Some r /\
    [Upload (Some "ecg")] ++ [Analyze calmEnv] = evs1 ++ Analyze env :: evs2 /\
    analyzeEnabled (ui (session false zeroInit evs1)) = true /\
    analysisOutput env (session false zeroInit evs1) y /\
    prediction (ui (session false zeroInit (evs1 ++ [Analyze env]))) = Some r /\
    values y = [p0; p1] /\
    (stemiDetected r = true <-> (p1 > 1 / 2)%R) /\
    confidence r = (100 * Rmax p0 p1)%R.
Proof.
  assert (Hr : exists r,
             prediction (ui (session false zeroInit
                               ([Upload (Some "ecg")] ++ [Analyze calmEnv])))
             = Some r).
  { rewrite session_snoc.
    destruct (session_uploaded zeroInit "ecg") as (m & -> & Hr).
    revert Hr. generalize (engine (mount false zeroInit)). intros e0 Hr.
    set (w1 := mkWorld (mkState (Some m) (Some "ecg") None false false) e0 [] []).
    destruct (analyzeECG_publishes calmEnv w1 "ecg" m (solidImage 1 1 0))
      as (t & e1 & p0 & p1 & _ & _ & _ & _ & _ & _ & Hrun);
      try reflexivity; [exact Hr|].
    cbn [step]. erewrite analyzeEnabled_true by reflexivity.
    rewrite Hrun. eexists. reflexivity. }
  destruct Hr as (r & Hr).
  destruct (rendered_result_follows_probabilities false zeroInit
              ([Upload (Some "ecg")] ++ [Analyze calmEnv]) r Hr)
    as (evs1 & env & evs2 & y & p0 & p1 & H).
  exists r, evs1, env, evs2, y, p0, p1. split; [exact Hr|exact H].
Defined.

(** ** An instance of the contract of [preprocessImage] *)


(** ** A picture that does not decode *)

(** When the picture does not decode, [onload] never fires: the handler
    stays suspended at its first [await], neither [catch] nor [finally]
    runs, no alert is shown, and the loading flag stays set, which keeps
    the analyze button disabled. *)
Lemma undecodable_picture_suspends (env : Env) (w : World) (src : string)
  (m : LayersModel) :
  truthy (imagePreview (ui w)) = Some src ->
  model (ui w) = Some m ->
  decode env src = None ->
  analyzeECG env w
  = (Pending, mkWorld (setLoading true (ui w)) (engine w) (console w) (alerts w)) /\
  analyzeEnabled (setLoading true (ui w)) = false.
Proof.
  intros Hsrc Hm Hd. split.
  - unfold analyzeECG, preprocessImage. now rewrite Hsrc, Hm, Hd.
  - unfold analyzeEnabled. cbn [loading setLoading]. apply andb_false_r.
Qed.

(** * Further properties of the page *)

(** ** What [preprocessImage] keeps of the picture *)

Lemma preprocessed_ext (img1 img2 : ImageData) (j : Z) :
  width img2 = width img1 -> height img2 = height img1 ->
  (forall i, i mod 4 <> 3 -> at_index 0 (data img1) i = at_index 0 (data img2) i) ->
  preprocessed img1 j = preprocessed img2 j.
Proof.
  intros Hw Hh Hd. unfold preprocessed, pixel. cbv zeta. rewrite Hw, Hh.
  f_equal. f_equal. apply Hd.
  rewrite Z.add_comm, Z.mod_add by lia.
  pose proof (Z.mod_pos_bound j 3 ltac:(lia)).
  rewrite Z.mod_small by lia. lia.
Qed.

(** The tensor does not depend on the alpha bytes: two pictures of the same
    size whose bytes agree outside the alpha positions preprocess to
    tensors of the same shape and data. *)
Theorem preprocess_ignores_alpha (img1 img2 : ImageData) (src : string)
  (e : Engine) :
  0 < width img1 -> 0 < height img1 ->
  width img2 = width img1 -> height img2 = height img1 ->
  (forall i, i mod 4 <> 3 -> at_index 0 (data img1) i = at_index 0 (data img2) i) ->
  exists t1 e1 t2 e2,
    preprocessImage (fun _ => Some img1) src e = (Resolved t1, e1) /\
    preprocessImage (fun _ => Some img2) src e = (Resolved t2, e2) /\
    shape t1 = shape t2 /\ values t1 = values t2.
Proof.
  intros Hw Hh Hw2 Hh2 Hd.
  destruct (pixelsToTensor_ok img1 e Hw Hh) as (t1 & e1 & Hr1 & _ & Hs1 & Hv1 & _).
  destruct (pixelsToTensor_ok img2 e) as (t2 & e2 & Hr2 & _ & Hs2 & Hv2 & _);
    [lia..|].
  exists t1, e1, t2, e2. unfold preprocessImage. rewrite Hr1, Hr2.
  split; [reflexivity|]. split; [reflexivity|]. split; [congruence|].
  rewrite Hv1, Hv2. apply map_seqZ_ext. intros j _.
  now apply preprocessed_ext.
Qed.

Lemma twoPixels_agree_outside_alpha (i : Z) :
  i mod 4 <> 3 ->
  at_index 0 (data twoPixels) i = at_index 0 (data twoPixelsClear) i.
Proof.
  intros Hi. unfold at_index. destruct (Z.ltb_spec i 0) as [|Hpos]; [reflexivity|].
  destruct (Z_lt_le_dec i 8) as [Hlt|Hge].
  - assert (Hc : i = 0 \/ i = 1 \/ i = 2 \/ i = 3 \/ i = 4 \/ i = 5 \/ i = 6 \/ i = 7)
      by lia.
    destruct Hc as [->|[->|[->|[->|[->|[->|[->| ->]]]]]]];
      try reflexivity; exfalso; apply Hi; reflexivity.
  - rewrite !lookup_ge_None_2; [reflexivity|simpl; lia|simpl; lia].
Qed.

Lemma preprocess_ignores_alpha_witness :
  exists t1 e1 t2 e2,
    preprocessImage (fun _ => Some twoPixels) "ecg" (engine initial)
    = (Resolved t1, e1) /\
    preprocessImage (fun _ => Some twoPixelsClear) "ecg" (engine initial)
    = (Resolved t2, e2) /\
    shape t1 = shape t2 /\ values t1 = values t2.
Proof.
  apply (preprocess_ignores_alpha twoPixels twoPixelsClear "ecg" (engine initial));
    [reflexivity|reflexivity|reflexivity|reflexivity|].
  exact twoPixels_agree_outside_alpha.
Defined.

Lemma nearest_index_multiple (k r : Z) :
  0 < k -> 0 <= r < 224 -> nearest_index (224 * k) 224 r = k * r.
Proof.
  intros Hk Hr. unfold nearest_index.
  replace (r * (224 * k)) with (k * r * 224) by lia.
  rewrite Z.div_mul by lia. nia.
Qed.

(** A picture of 224*kh rows and 224*kw columns is sampled, not averaged:
    the element at row [r], column [col] of the tensor is the quotient by
    255 of the pixel at row [kh*r], column [kw*col], the top-left corner of
    its block; the other pixels of the block are dropped. For a picture of
    224 by 224 pixels nothing is resampled. *)
Theorem preprocess_samples_block_corners (decode : string -> option ImageData)
  (src : string) (img : ImageData) (e : Engine) (kh kw : Z) :
  decode src = Some img ->
  0 < kh -> 0 < kw ->
  height img = 224 * kh -> width img = 224 * kw ->
  exists t e',
    preprocessImage decode src e = (Resolved t, e') /\
    forall r col ch,
      0 <= r < 224 -> 0 <= col < 224 -> 0 <= ch < 3 ->
      values t !! Z.to_nat ((r * 224 + col) * 3 + ch)
      = Some (F32.div (F32.of_Z (pixel img (kh * r) (kw * col) ch)) (F32.of_Z 255)).
Proof.
  intros Hd Hkh Hkw Hh Hw.
  destruct (pixelsToTensor_ok img e) as (t & e' & Hrun & _ & _ & Hv & _); [lia..|].
  exists t, e'. unfold preprocessImage. rewrite Hd, Hrun.
  split; [reflexivity|]. intros r col ch Hr Hc Hch.
  rewrite Hv, lookup_map_seqZ by lia. f_equal.
  rewrite preprocessed_at by assumption. rewrite Hh, Hw.
  now rewrite !nearest_index_multiple.
Qed.

Lemma preprocess_samples_block_corners_witness :
  exists t e',
    preprocessImage (fun _ => Some (solidImage 448 224 7)) "ecg" (engine initial)
    = (Resolved t, e') /\
    forall r col ch,
      0 <= r < 224 -> 0 <= col < 224 -> 0 <= ch < 3 ->
      values t !! Z.to_nat ((r * 224 + col) * 3 + ch)
      = Some (F32.div
                (F32.of_Z (pixel (solidImage 448 224 7) (1 * r) (2 * col) ch))
                (F32.of_Z 255)).
Proof.
  apply (preprocess_samples_block_corners (fun _ => Some (solidImage 448 224 7))
           "ecg" (solidImage 448 224 7) (engine initial) 1 2);
    [reflexivity|lia|lia|reflexivity|reflexivity].
Defined.

(** ** The simulated features *)

(** *** Rounding in binary64 *)

Lemma digits2_pos_size (p : positive) : digits2_pos p = Pos.size p.
Proof. induction p; simpl; congruence. Qed.

Lemma digits2_pos_bounds (p : positive) :
  2 ^ (Z.pos (digits2_pos p) - 1) <= Z.pos p < 2 ^ Z.pos (digits2_pos p).
Proof.
  rewrite digits2_pos_size. split.
  - pose proof (Pos.size_le p) as H.
    assert (H' : (Z.pos (2 ^ Pos.size p) <= Z.pos p~0)) by exact H.
    rewrite Pos2Z.inj_pow in H'.
    replace (Z.pos (Pos.size p)) with (1 + (Z.pos (Pos.size p) - 1)) in H' by lia.
    rewrite Z.pow_add_r in H' by lia. lia.
  - pose proof (Pos.size_gt p) as H.
    assert (H' : (Z.pos p < Z.pos (2 ^ Pos.size p))) by exact H.
    now rewrite Pos2Z.inj_pow in H'.
Qed.

Lemma iter_pos_nat {A} (f : A -> A) (p : positive) (x : A) :
  SpecFloat.iter_pos f p x = Nat.iter (Pos.to_nat p) f x.
Proof.
  revert x. induction p as [p IH|p IH|]; intros x; cbn [SpecFloat.iter_pos].
  - rewrite !IH. rewrite Pos2Nat.inj_xI.
    replace (S (2 * Pos.to_nat p))%nat with (Pos.to_nat p + (Pos.to_nat p + 1))%nat by lia.
    rewrite !Nat.iter_add. reflexivity.
  - rewrite !IH. rewrite Pos2Nat.inj_xO.
    replace (2 * Pos.to_nat p)%nat with (Pos.to_nat p + Pos.to_nat p)%nat by lia.
    rewrite Nat.iter_add. reflexivity.
  - reflexivity.
Qed.

Lemma shr_1_spec (r : shr_record) :
  0 <= shr_m r ->
  shr_m (shr_1 r) = shr_m r / 2 /\ shr_r (shr_1 r) = Z.odd (shr_m r).
Proof.
  destruct r as [m r s]. simpl. intros Hm.
  destruct m as [|[p|p|]|p]; simpl; try lia; split; try reflexivity.
  - rewrite Pos2Z.inj_xI. apply (Z.div_unique _ 2 _ 1); lia.
  - rewrite Pos2Z.inj_xO. apply (Z.div_unique _ 2 _ 0); lia.
Qed.

Lemma shr_iter_spec (m : Z) (k : nat) :
  0 <= m ->
  shr_m (Nat.iter k shr_1 (Build_shr_record m false false)) = m / 2 ^ Z.of_nat k /\
  (shr_r (Nat.iter k shr_1 (Build_shr_record m false false)) = true ->
   (0 < k)%nat /\ Z.odd (m / 2 ^ (Z.of_nat k - 1)) = true).
Proof.
  intros Hm. induction k as [|k [IHm IHr]].
  - simpl. split; [now rewrite Z.div_1_r|discriminate].
  - rewrite !Nat.iter_succ.
    assert (Hpos : 0 <= shr_m (Nat.iter k shr_1 (Build_shr_record m false false))).
    { rewrite IHm. apply Z.div_pos; [lia|]. apply Z.pow_pos_nonneg; lia. }
    destruct (shr_1_spec _ Hpos) as [H1 H2]. rewrite H1, H2, IHm. split.
    + rewrite Nat2Z.inj_succ, Z.pow_succ_r by lia.
      rewrite Z.div_div by (try apply Z.pow_pos_nonneg; lia).
      now rewrite (Z.mul_comm 2).
    + intros Ho. split; [lia|].
      replace (Z.of_nat (S k) - 1) with (Z.of_nat k) by lia. exact Ho.
Qed.

Lemma odd_quotient_half (m k : Z) :
  0 <= m -> 0 < k -> Z.odd (m / 2 ^ (k - 1)) = true ->
  2 ^ (k - 1) <= m mod 2 ^ k.
Proof.
  intros Hm Hk Ho.
  assert (Hp : 0 < 2 ^ (k - 1)) by (apply Z.pow_pos_nonneg; lia).
  assert (Hk2 : 2 ^ k = 2 * 2 ^ (k - 1)).
  { replace k with (1 + (k - 1)) at 1 by lia. rewrite Z.pow_add_r by lia. reflexivity. }
  pose proof (Z.div_mod m (2 ^ (k - 1)) ltac:(lia)) as Hdm.
  pose proof (Z.mod_pos_bound m (2 ^ (k - 1)) Hp) as Hb.
  set (a := m / 2 ^ (k - 1)) in *. set (b := m mod 2 ^ (k - 1)) in *.
  rewrite Z.odd_spec in Ho. destruct Ho as [c Hc].
  assert (Hmod : m mod 2 ^ k = 2 ^ (k - 1) + b).
  { symmetry. apply (Z.mod_unique m (2 ^ k) c); [left; lia|]. rewrite Hk2. nia. }
  lia.
Qed.

Lemma Zdigits2_bounds (m : Z) :
  0 < m -> 0 < Zdigits2 m /\ 2 ^ (Zdigits2 m - 1) <= m < 2 ^ Zdigits2 m.
Proof.
  destruct m as [|p|p]; try lia. intros _. cbn [Zdigits2].
  split; [lia|apply digits2_pos_bounds].
Qed.

Lemma shr_fexp_spec (m e : Z) (mrs : shr_record) (e' : Z) :
  0 <= m ->
  shr_fexp F64.prec F64.emax m e loc_Exact = (mrs, e') ->
  exists s,
    s = Z.max (Z.max (Zdigits2 m + e - 53) (-1074) - e) 0 /\
    e' = e + s /\ shr_m mrs = m / 2 ^ s /\
    (shr_r mrs = true -> 0 < s /\ 2 ^ (s - 1) <= m mod 2 ^ s) /\
    (shr_r mrs = false -> loc_of_shr_record mrs = loc_Exact
                          \/ loc_of_shr_record mrs = loc_Inexact Lt).
Proof.
  intros Hm. unfold shr_fexp, shr, fexp, emin, F64.prec, F64.emax.
  cbn [shr_record_of_loc].
  change (3 - 1024 - 53) with (-1074).
  set (n := Z.max (Zdigits2 m + e - 53) (-1074) - e).
  assert (Hloc : forall r, shr_r r = false ->
            loc_of_shr_record r = loc_Exact \/ loc_of_shr_record r = loc_Inexact Lt).
  { intros [m0 [|] [|]]; cbn; intros; try discriminate; auto. }
  destruct n as [|p|p] eqn:Hn; intros [= <- <-].
  - exists 0. cbn. rewrite Z.div_1_r. repeat split; try lia; try discriminate. auto.
  - exists (Z.pos p). rewrite iter_pos_nat.
    destruct (shr_iter_spec m (Pos.to_nat p) Hm) as [H1 H2].
    rewrite positive_nat_Z in H1, H2.
    split; [lia|]. split; [reflexivity|]. split; [exact H1|]. split; [|apply Hloc].
    intros Hr. destruct (H2 Hr) as [_ Ho]. split; [lia|].
    apply odd_quotient_half; [exact Hm|lia|exact Ho].
  - exists 0. cbn. rewrite Z.div_1_r. repeat split; try lia; try discriminate. auto.
Qed.

Lemma round_nearest_even_spec (mrs : shr_record) :
  shr_m mrs <= round_nearest_even (shr_m mrs) (loc_of_shr_record mrs) <= shr_m mrs + 1 /\
  (shr_r mrs = false ->
   round_nearest_even (shr_m mrs) (loc_of_shr_record mrs) = shr_m mrs).
Proof.
  destruct mrs as [m [|] [|]]; cbn; try destruct (Z.even m); split; try lia;
    try discriminate; auto.
Qed.

Lemma of_Z_60 : F64.of_Z 60 = S754_finite false 8444249301319680 (-47).
Proof. vm_compute. reflexivity. Qed.

Lemma pow2_pos (n : Z) : 0 <= n -> 0 < 2 ^ n.
Proof. intros. apply Z.pow_pos_nonneg; lia. Qed.

Lemma pow2_split (a b : Z) : 0 <= a -> 0 <= b -> 2 ^ (a + b) = 2 ^ a * 2 ^ b.
Proof. intros. now rewrite Z.pow_add_r. Qed.

Lemma pow2_lt_inv (a b : Z) : 0 <= b -> 2 ^ a < 2 ^ b -> a < b.
Proof. intros Hb H. apply (Z.pow_lt_mono_r_iff 2); lia. Qed.

(** The product by 60 of a double below one, rounded to a double, lies
    below 60: it is zero or a double [m * 2^e] with [m < 60 * 2^(-e)]. *)
Lemma mul60_below (mx : positive) (ex t : Z) :
  ex = -52 - t -> 0 <= t -> 2 * Z.pos mx <= (2 ^ 53 - 1) * 2 ^ t ->
  F64.mul (S754_finite false mx ex) (S754_finite false 8444249301319680 (-47))
  = S754_zero false \/
  exists m e, e <= -47 /\ Z.pos m < 60 * 2 ^ (- e) /\
    F64.mul (S754_finite false mx ex) (S754_finite false 8444249301319680 (-47))
    = S754_finite false m e.
Proof.
  intros Hex Ht Hmx.
  unfold F64.mul, SFmul. cbn [xorb]. unfold binary_round_aux.
  rewrite Pos2Z.inj_mul.
  set (M := Z.pos mx * 8444249301319680).
  set (E := ex + -47).
  assert (HE : E = -99 - t) by (unfold E; lia).
  assert (HA : 0 < 2 ^ t) by now apply pow2_pos.
  assert (HM0 : 0 < M) by (unfold M; lia).
  assert (HMlt : M < 60 * (2 ^ 99 * 2 ^ t)).
  { unfold M. change (2 ^ 99) with 633825300114114700748351602688.
    change (2 ^ 53 - 1) with 9007199254740991 in Hmx. nia. }
  assert (H2M : 2 * M <= 120 * (2 ^ 99 * 2 ^ t) - 8444249301319680 * 2 ^ t).
  { unfold M. change (2 ^ 99) with 633825300114114700748351602688.
    change (2 ^ 53 - 1) with 9007199254740991 in Hmx. nia. }
  destruct (shr_fexp F64.prec F64.emax M E loc_Exact) as [mrs1 e1] eqn:H1.
  apply shr_fexp_spec in H1 as (s1 & Hs1 & He1 & Hm1 & Hr1 & _); [|lia].
  destruct (Zdigits2_bounds M HM0) as [Hd0 [Hdlo Hdhi]].
  set (d := Zdigits2 M) in *.
  assert (Hd : d <= 105 + t).
  { assert (2 ^ (d - 1) < 2 ^ (105 + t)).
    { rewrite (pow2_split 105 t) by lia.
      change (2 ^ 105) with (64 * 2 ^ 99). nia. }
    apply pow2_lt_inv in H; lia. }
  assert (Hs1lo : 0 <= s1) by lia.
  assert (He1le : e1 <= -47) by lia.
  assert (HS : 0 < 2 ^ s1) by now apply pow2_pos.
  assert (HP : 0 < 2 ^ (- e1)) by (apply pow2_pos; lia).
  assert (HPS : 2 ^ (- e1) * 2 ^ s1 = 2 ^ 99 * 2 ^ t).
  { rewrite <- !pow2_split by lia. f_equal. lia. }
  pose proof (round_nearest_even_spec mrs1) as [[Hrlo Hrhi] Hrd].
  set (m2 := round_nearest_even (shr_m mrs1) (loc_of_shr_record mrs1)) in *.
  assert (Hm1lt : shr_m mrs1 < 60 * 2 ^ (- e1)).
  { rewrite Hm1. apply Z.div_lt_upper_bound; [exact HS|]. nia. }
  assert (Hm1nn : 0 <= shr_m mrs1).
  { rewrite Hm1. apply Z.div_pos; lia. }
  assert (Hm2 : 0 <= m2 < 60 * 2 ^ (- e1)).
  { split; [lia|].
    destruct (shr_r mrs1) eqn:Hr; [|rewrite (Hrd eq_refl); exact Hm1lt].
    destruct (Hr1 eq_refl) as [Hs1pos Hhalf].
    destruct (Z_lt_le_dec m2 (60 * 2 ^ (- e1))) as [?|Hge]; [assumption|exfalso].
    assert (Hm1eq : shr_m mrs1 = 60 * 2 ^ (- e1) - 1) by lia.
    pose proof (Z.div_mod M (2 ^ s1) ltac:(lia)) as Hdm.
    rewrite <- Hm1, Hm1eq in Hdm.
    assert (Hhalf2 : 2 ^ s1 = 2 * 2 ^ (s1 - 1)).
    { replace s1 with (1 + (s1 - 1)) at 1 by lia.
      rewrite pow2_split by lia. reflexivity. }
    assert (HSge : 8444249301319680 * 2 ^ t <= 2 ^ s1) by nia.
    assert (HSle : 2 ^ s1 <= 2 ^ 52 * 2 ^ t).
    { rewrite <- pow2_split by lia. apply Z.pow_le_mono_r; lia. }
    change (2 ^ 52) with 4503599627370496 in HSle. nia. }
  destruct (shr_fexp F64.prec F64.emax m2 e1 loc_Exact) as [mrs2 e2] eqn:H2.
  apply shr_fexp_spec in H2 as (s2 & Hs2 & He2 & Hm3 & _); [|lia].
  assert (Hs2lo : 0 <= s2) by lia.
  assert (He2le : e2 <= -47).
  { destruct (Z.eq_dec m2 0) as [Hz|Hnz].
    - rewrite Hz in Hs2. cbn [Zdigits2] in Hs2. lia.
    - destruct (Zdigits2_bounds m2 ltac:(lia)) as [Hd20 [Hd2lo _]].
      assert (2 ^ (Zdigits2 m2 - 1) < 2 ^ (6 - e1)).
      { replace (6 - e1) with (6 + - e1) by lia.
        rewrite (pow2_split 6 (- e1)) by lia. change (2 ^ 6) with 64. lia. }
      apply pow2_lt_inv in H; lia. }
  assert (HP2 : 2 ^ (- e1) = 2 ^ (- e2) * 2 ^ s2).
  { rewrite <- pow2_split by lia. f_equal. lia. }
  assert (HS2 : 0 < 2 ^ s2) by now apply pow2_pos.
  assert (Hm3lt : shr_m mrs2 < 60 * 2 ^ (- e2)).
  { rewrite Hm3. apply Z.div_lt_upper_bound; [exact HS2|]. nia. }
  assert (Hm3nn : 0 <= shr_m mrs2).
  { rewrite Hm3. apply Z.div_pos; lia. }
  destruct (shr_m mrs2) as [|m3|m3]; [left; reflexivity| |lia].
  right. exists m3, e2. split; [exact He2le|]. split; [exact Hm3lt|].
  unfold F64.emax, F64.prec.
  destruct (Z.leb_spec e2 (1024 - 53)); [reflexivity|lia].
Qed.

Lemma add60_table (k : Z) :
  0 <= k <= 59 -> F64.add (F64.of_Z k) (F64.of_Z 60) = F64.of_Z (k + 60).
Proof.
  intros Hk.
  assert (H : forallb (fun k =>
                match F64.add (F64.of_Z k) (F64.of_Z 60), F64.of_Z (k + 60) with
                | S754_finite false m1 e1, S754_finite false m2 e2 =>
                    Pos.eqb m1 m2 && Z.eqb e1 e2
                | _, _ => false
                end) (map Z.of_nat (seq 0 60)) = true) by (vm_compute; reflexivity).
  rewrite forallb_forall in H.
  specialize (H k). 
  assert (Hin : In k (map Z.of_nat (seq 0 60))).
  { apply in_map_iff. exists (Z.to_nat k). split; [lia|]. apply in_seq. lia. }
  specialize (H Hin).
  destruct (F64.add (F64.of_Z k) (F64.of_Z 60)) as [| | |[|] m1 e1]; try discriminate H.
  destruct (F64.of_Z (k + 60)) as [| | |[|] m2 e2]; try discriminate H.
  apply andb_true_iff in H as [Hm He].
  apply Pos.eqb_eq in Hm. apply Z.eqb_eq in He. congruence.
Qed.

(** [Math.floor(Math.random() * 60) + 60] is an integer from 60 to 119. *)
Lemma heartRate_of_draw (x : spec_float) :
  F64.is_draw x = true ->
  exists n, 60 <= n <= 119 /\
    F64.add (F64.floor (F64.mul x (F64.of_Z 60))) (F64.of_Z 60) = F64.of_Z n.
Proof.
  unfold F64.is_draw. intros H.
  apply andb_true_iff in H as [H Hlt]. apply andb_true_iff in H as [Hv Hle].
  destruct x as [s|s| |s m e];
    [|destruct s; [discriminate Hle|discriminate Hlt]|discriminate Hlt|].
  - exists 60. split; [lia|]. destruct s; vm_compute; reflexivity.
  - destruct s; [discriminate Hle|].
    assert (Hm : Z.pos m < 2 ^ 53).
    { cbn [valid_binary] in Hv. unfold bounded, canonical_mantissa in Hv.
      apply andb_true_iff in Hv as [Hc _]. apply Z.eqb_eq in Hc.
      unfold fexp, emin, F64.prec, F64.emax in Hc.
      pose proof (digits2_pos_bounds m) as [_ Hhi].
      assert (Z.pos (digits2_pos m) <= 53) by lia.
      eapply Z.lt_le_trans; [exact Hhi|]. apply Z.pow_le_mono_r; lia. }
    assert (Hx : exists t, e = -52 - t /\ 0 <= t /\
                           2 * Z.pos m <= (2 ^ 53 - 1) * 2 ^ t).
    { unfold SFltb, F64.one in Hlt. cbn [SFcompare] in Hlt.
      destruct (Z.compare_spec e (-52)) as [He|He|He]; try discriminate Hlt.
      - exists 0. split; [lia|]. split; [lia|].
        rewrite Pos.compare_cont_spec in Hlt.
        destruct (Pos.compare_spec m 4503599627370496) as [Hc|Hc|Hc];
          try discriminate Hlt.
        apply Pos2Z.pos_lt_pos in Hc.
        change (2 ^ 0) with 1. change (2 ^ 53 - 1) with 9007199254740991.
        clear - Hc. lia.
      - exists (-52 - e). split; [lia|]. split; [lia|].
        assert (2 <= 2 ^ (-52 - e)).
        { change 2 with (2 ^ 1) at 1. apply Z.pow_le_mono_r; lia. }
        change (2 ^ 53) with 9007199254740992 in Hm.
        change (2 ^ 53 - 1) with 9007199254740991.
        clear - Hm H. nia. }
    destruct Hx as (t & He & Ht & Hb). rewrite of_Z_60.
    destruct (mul60_below m e t He Ht Hb) as [->|(m' & e' & He' & Hm' & ->)].
    + exists 60. split; [lia|]. vm_compute. reflexivity.
    + unfold F64.floor. destruct (Z.leb_spec 0 e') as [?|_]; [lia|].
      cbn [cond_Zopp]. rewrite Z.shiftl_div_pow2 by lia.
      assert (Hp : 0 < 2 ^ (- e')) by (apply pow2_pos; lia).
      assert (Hk : 0 <= Z.pos m' / 2 ^ (- e') <= 59).
      { split; [apply Z.div_pos; lia|].
        assert (Z.pos m' / 2 ^ (- e') < 60); [|lia].
        apply Z.div_lt_upper_bound; [exact Hp|]. lia. }
      exists (Z.pos m' / 2 ^ (- e') + 60). split; [lia|].
      rewrite <- of_Z_60. now apply add60_table.
Qed.

(** The draw 2552039788843281 / 2^53: the product by 60 rounds up to 17,
    where the exact product lies just below it. *)
Lemma heartRate_example :
  F64.add (F64.floor (F64.mul (S754_finite false 2552039788843281 (-53)) (F64.of_Z 60)))
          (F64.of_Z 60) = F64.of_Z 77.
Proof. vm_compute. reflexivity. Qed.

(** *** The features of a shown result *)

(** The four features of a shown result come from the draws of
    [Math.random] made during one analysis of the session and from nothing
    else, neither the picture nor the output of the model; when the fourth
    draw is a double in [0,1), as [Math.random] returns, the heart rate
    shown is an integer from 60 to 119. *)
Theorem rendered_features_are_draws (fault : bool) (init : nat -> Z -> R)
  (evs : list Event) (r : Result) :
  prediction (ui (session fault init evs)) = Some r ->
  exists env,
    Analyze env ∈ evs /\
    features r
    = mkFeatures (F64.gt (random env 0%nat) (F64.literal 5 10))
                 (F64.gt (random env 1%nat) (F64.literal 6 10))
                 (F64.gt (random env 2%nat) (F64.literal 7 10))
                 (F64.add (F64.floor (F64.mul (random env 3%nat) (F64.of_Z 60)))
                          (F64.of_Z 60)) /\
    (F64.is_draw (random env 3%nat) = true ->
     exists n, 60 <= n <= 119 /\ heartRate (features r) = F64.of_Z n).
Proof.
  intros Hr. unfold session in Hr.
  destruct (run_result_origin evs _ r Hr)
    as [H|(evs1 & env & evs2 & y & -> & _ & _ & _ & ->)].
  - exfalso. destruct fault.
    + rewrite mount_failed in H. discriminate H.
    + destruct (mount_spec init) as (m & _ & _ & _ & _ & _ & _ & Hui & _).
      rewrite Hui in H. discriminate H.
  - exists env. split; [|split; [reflexivity|]].
    + apply elem_of_app. right. apply list_elem_of_here.
    + cbn [makeResult features heartRate]. apply heartRate_of_draw.
Qed.

Lemma rendered_features_are_draws_witness :
  exists r env,
    prediction (ui (session false zeroInit ([Upload (Some "ecg")] ++ [Analyze calmEnv])))
    = Some r /\
    Analyze env ∈ [Upload (Some "ecg")] ++ [Analyze calmEnv] /\
    features r
    = mkFeatures (F64.gt (random env 0%nat) (F64.literal 5 10))
                 (F64.gt (random env 1%nat) (F64.literal 6 10))
                 (F64.gt (random env 2%nat) (F64.literal 7 10))
                 (F64.add (F64.floor (F64.mul (random env 3%nat) (F64.of_Z 60)))
                          (F64.of_Z 60)) /\
    (F64.is_draw (random env 3%nat) = true ->
     exists n, 60 <= n <= 119 /\ heartRate (features r) = F64.of_Z n).
Proof.
  assert (Hr : exists r,
             prediction (ui (session false zeroInit
                               ([Upload (Some "ecg")] ++ [Analyze calmEnv])))
             = Some r).
  { rewrite session_snoc.
    destruct (session_uploaded zeroInit "ecg") as (m & -> & Hr).
    revert Hr. generalize (engine (mount false zeroInit)). intros e0 Hr.
    set (w1 := mkWorld (mkState (Some m) (Some "ecg") None false false) e0 [] []).
    destruct (analyzeECG_publishes calmEnv w1 "ecg" m (solidImage 1 1 0))
      as (t & e1 & p0 & p1 & _ & _ & _ & _ & _ & _ & Hrun);
      try reflexivity; [exact Hr|].
    cbn [step]. erewrite analyzeEnabled_true by reflexivity.
    rewrite Hrun. eexists. reflexivity. }
  destruct Hr as (r & Hr).
  destruct (rendered_features_are_draws false zeroInit
              ([Upload (Some "ecg")] ++ [Analyze calmEnv]) r Hr) as (env & H).
  exists r, env. split; [exact Hr|exact H].
Defined.

(** ** An analysis that never completes *)

Lemma step_while_loading (w : World) (ev : Event) :
  loading (ui w) = true ->
  loading (ui (step w ev)) = true /\
  engine (step w ev) = engine w /\
  alerts (step w ev) = alerts w /\
  console (step w ev) = console w /\
  (prediction (ui (step w ev)) = prediction (ui w) \/
   prediction (ui (step w ev)) = None).
Proof.
  intros Hl. destruct ev as [file|env]; cbn [step].
  - destruct (uploadEnabled (ui w)); [|auto 10].
    destruct file; cbn; auto 10.
  - unfold analyzeEnabled. rewrite Hl. cbn [orb negb]. rewrite andb_false_r.
    auto 10.
Qed.

Lemma run_while_loading (evs : list Event) :
  forall w,
    loading (ui w) = true ->
    loading (ui (foldl step w evs)) = true /\
    engine (foldl step w evs) = engine w /\
    alerts (foldl step w evs) = alerts w /\
    console (foldl step w evs) = console w /\
    (prediction (ui (foldl step w evs)) = prediction (ui w) \/
     prediction (ui (foldl step w evs)) = None).
Proof.
  induction evs as [|ev evs IH]; intros w Hl; cbn [foldl]; [auto 10|].
  destruct (step_while_loading w ev Hl) as (Hl1 & He1 & Ha1 & Hc1 & Hp1).
  destruct (IH _ Hl1) as (Hl2 & He2 & Ha2 & Hc2 & Hp2).
  repeat split; try congruence.
  destruct Hp2 as [Hp2|Hp2]; [rewrite Hp2; exact Hp1|now right].
Qed.

(** A picture that does not decode, or decodes to an empty canvas, blocks
    the page for good: the analysis stays suspended, and whatever the user
    does afterwards the loading flag stays set, the analyze button stays
    disabled, no alert and no console message appears, the engine is not
    used, and no new result is shown (the old one stays until the next
    upload clears it). *)
Theorem undecodable_picture_blocks_the_page (env : Env) (w : World)
  (src : string) (m : LayersModel) (evs : list Event) :
  truthy (imagePreview (ui w)) = Some src ->
  model (ui w) = Some m ->
  (decode env src = None \/
   exists img, decode env src = Some img /\ (width img <= 0 \/ height img <= 0)) ->
  fst (analyzeECG env w) = Pending /\
  loading (ui (foldl step (snd (analyzeECG env w)) evs)) = true /\
  analyzeEnabled (ui (foldl step (snd (analyzeECG env w)) evs)) = false /\
  alerts (foldl step (snd (analyzeECG env w)) evs) = alerts w /\
  console (foldl step (snd (analyzeECG env w)) evs) = console w /\
  engine (foldl step (snd (analyzeECG env w)) evs) = engine w /\
  (prediction (ui (foldl step (snd (analyzeECG env w)) evs)) = prediction (ui w) \/
   prediction (ui (foldl step (snd (analyzeECG env w)) evs)) = None).
Proof.
  intros Hsrc Hm Hd.
  assert (Hrun : analyzeECG env w
                 = (Pending, mkWorld (setLoading true (ui w)) (engine w)
                                     (console w) (alerts w))).
  { unfold analyzeECG. rewrite Hsrc, Hm.
    destruct (preprocessImage_cases (decode env) src (engine w))
      as [(img & t & e1 & Hd' & Hw & Hh & _)|(_ & ->)]; [|reflexivity].
    exfalso. destruct Hd as [Hd|(img' & Hd & Hdim)]; rewrite Hd in Hd';
      [discriminate Hd'|]. injection Hd' as ->. lia. }
  rewrite Hrun. cbn [fst snd]. split; [reflexivity|].
  destruct (run_while_loading evs
              (mkWorld (setLoading true (ui w)) (engine w) (console w) (alerts w))
              eq_refl) as (Hl & He & Ha & Hc & Hp).
  split; [exact Hl|]. split; [|auto].
  unfold analyzeEnabled. rewrite Hl. cbn [orb negb]. apply andb_false_r.
Qed.

Lemma undecodable_picture_blocks_the_page_witness :
  let evs := [Upload (Some "next"); Analyze calmEnv] in
  fst (analyzeECG brokenEnv bareWorld) = Pending /\
  loading (ui (foldl step (snd (analyzeECG brokenEnv bareWorld)) evs)) = true /\
  analyzeEnabled (ui (foldl step (snd (analyzeECG brokenEnv bareWorld)) evs)) = false /\
  alerts (foldl step (snd (analyzeECG brokenEnv bareWorld)) evs) = alerts bareWorld /\
  console (foldl step (snd (analyzeECG brokenEnv bareWorld)) evs) = console bareWorld /\
  engine (foldl step (snd (analyzeECG brokenEnv bareWorld)) evs) = engine bareWorld /\
  (prediction (ui (foldl step (snd (analyzeECG brokenEnv bareWorld)) evs))
   = prediction (ui bareWorld) \/
   prediction (ui (foldl step (snd (analyzeECG brokenEnv bareWorld)) evs)) = None).
Proof.
  apply (undecodable_picture_blocks_the_page brokenEnv bareWorld "ecg"
           (mkLayersModel [] [224; 224; 3] None));
    [reflexivity|reflexivity|left; reflexivity].
Defined.

(** ** Analyses one after the other *)

(** Nothing fails: the result shown is made from the output of the
    forward pass on the picture. *)
Lemma analyzeECG_output (env : Env) (w : World) (src : string)
  (m : LayersModel) (img : ImageData) :
  truthy (imagePreview (ui w)) = Some src ->
  model (ui w) = Some m ->
  ready m (engine w) ->
  decode env src = Some img -> 0 < width img -> 0 < height img ->
  backend_fault env = false -> data_fault env = false ->
  exists y,
    analysisOutput env w y /\
    prediction (ui (snd (analyzeECG env w)))
    = Some (makeResult (values y) (random env)).
Proof.
  intros Hsrc Hm (Hc & Hb & Hl) Hd Hw Hh Hbf Hdf.
  destruct (pixelsToTensor_ok img (engine w) Hw Hh)
    as (t & e1 & Hrun & Ht & Hs & _ & Hg).
  assert (Hpre : preprocessImage (decode env) src (engine w) = (Resolved t, e1)).
  { unfold preprocessImage. now rewrite Hd, Hrun. }
  assert (Hready : ready m e1).
  { destruct Hg as (_ & _ & Hv & _). unfold ready. rewrite Hv. auto. }
  assert (Hlive : tid t ∈ live e1).
  { rewrite Ht. exact (grown_live_last 4 _ _ Hg). }
  destruct (predict_spec m t e1 Hready Hlive Hs) as (p0 & p1 & Hp & _).
  set (y := mkTensor (next_id e1) [1; 2] [p0; p1]) in *.
  assert (Hdata : dataOf false y (afterPredict e1)
                  = (Ok (values y), afterPredict e1)).
  { unfold dataOf. erewrite bind_ok; [reflexivity|].
    apply use_live. cbn [y tid live afterPredict]. apply fresh_in. }
  exists y. split.
  - exists src, m, t, e1. rewrite Hbf, Hdf. auto.
  - unfold analyzeECG. rewrite Hsrc, Hm, Hpre.
    unfold analyzeBody. rewrite Hbf, Hp, Hdf, Hdata. reflexivity.
Qed.

Lemma analyze_step_publishes (env : Env) (w : World) (src : string)
  (m : LayersModel) (img : ImageData) :
  mounted w m ->
  truthy (imagePreview (ui w)) = Some src ->
  loading (ui w) = false ->
  decode env src = Some img -> 0 < width img -> 0 < height img ->
  backend_fault env = false -> data_fault env = false ->
  (exists y, analysisOutput env w y /\
             prediction (ui (step w (Analyze env)))
             = Some (makeResult (values y) (random env))) /\
  mounted (step w (Analyze env)) m /\
  imagePreview (ui (step w (Analyze env))) = imagePreview (ui w) /\
  loading (ui (step w (Analyze env))) = false /\
  alerts (step w (Analyze env)) = alerts w /\
  numTensors (engine (step w (Analyze env))) = (4 + numTensors (engine w))%nat.
Proof.
  intros Hmt Hsrc Hl Hd Hw Hh Hbf Hdf.
  pose proof (mounted_step w m (Analyze env) Hmt) as Hmt'.
  destruct Hmt as (Hm & Hr & Hok).
  pose proof (analyzeECG_success_leaks_four env w src m img Hok Hsrc Hm Hr Hd Hw Hh
                Hbf Hdf) as Hleak.
  destruct (analyzeECG_stable env w Hok) as (_ & Hip & _).
  destruct (analyzeECG_publishes env w src m img Hsrc Hm Hr Hd Hw Hh Hbf Hdf)
    as (t & e1 & p0 & p1 & _ & _ & _ & _ & _ & _ & Hrun).
  destruct (analyzeECG_output env w src m img Hsrc Hm Hr Hd Hw Hh Hbf Hdf)
    as (y & Hout & Hpred).
  revert Hmt'. cbn [step]. rewrite (analyzeEnabled_true (ui w) src m Hsrc Hm Hl).
  intros Hmt'. split; [|split; [exact Hmt'|split; [exact Hip|split; [|split]]]].
  - exists y. auto.
  - rewrite Hrun. reflexivity.
  - rewrite Hrun. reflexivity.
  - exact Hleak.
Qed.

Lemma analyze_step_backend_fault (env : Env) (w : World) (src : string)
  (m : LayersModel) (img : ImageData) :
  mounted w m ->
  truthy (imagePreview (ui w)) = Some src ->
  loading (ui w) = false ->
  decode env src = Some img -> 0 < width img -> 0 < height img ->
  backend_fault env = true ->
  prediction (ui (step w (Analyze env))) = prediction (ui w) /\
  mounted (step w (Analyze env)) m /\
  imagePreview (ui (step w (Analyze env))) = imagePreview (ui w) /\
  loading (ui (step w (Analyze env))) = false /\
  alerts (step w (Analyze env))
  = alerts w ++ ["Error analyzing ECG image. Please try again."].
Proof.
  intros Hmt Hsrc Hl Hd Hw Hh Hbf.
  pose proof (mounted_step w m (Analyze env) Hmt) as Hmt'.
  destruct Hmt as (Hm & Hr & Hok).
  destruct (analyzeECG_backend_fault env w src m img Hsrc Hm Hd Hw Hh Hbf)
    as (e1 & _ & Hrun).
  revert Hmt'. cbn [step]. rewrite (analyzeEnabled_true (ui w) src m Hsrc Hm Hl).
  intros Hmt'. split; [|split; [exact Hmt'|]]; rewrite Hrun; cbn; auto.
Qed.

(** A failed analysis does no lasting harm: when the backend raises during
    one analysis and works during the next, the first shows the alert and
    keeps what was shown, and the second publishes the result of its own
    forward pass on the picture, clears the loading flag and shows no
    further alert. *)
Theorem analysis_succeeds_after_a_failure (env1 env2 : Env) (w : World)
  (src : string) (m : LayersModel) (img1 img2 : ImageData) :
  mounted w m ->
  truthy (imagePreview (ui w)) = Some src ->
  loading (ui w) = false ->
  decode env1 src = Some img1 -> 0 < width img1 -> 0 < height img1 ->
  backend_fault env1 = true ->
  decode env2 src = Some img2 -> 0 < width img2 -> 0 < height img2 ->
  backend_fault env2 = false -> data_fault env2 = false ->
  prediction (ui (step w (Analyze env1))) = prediction (ui w) /\
  alerts (step w (Analyze env1))
  = alerts w ++ ["Error analyzing ECG image. Please try again."] /\
  analyzeEnabled (ui (step w (Analyze env1))) = true /\
  (exists y,
      analysisOutput env2 (step w (Analyze env1)) y /\
      prediction (ui (foldl step w [Analyze env1; Analyze env2]))
      = Some (makeResult (values y) (random env2))) /\
  loading (ui (foldl step w [Analyze env1; Analyze env2])) = false /\
  alerts (foldl step w [Analyze env1; Analyze env2])
  = alerts w ++ ["Error analyzing ECG image. Please try again."].
Proof.
  intros Hmt Hsrc Hl Hd1 Hw1 Hh1 Hf1 Hd2 Hw2 Hh2 Hbf2 Hdf2.
  destruct (analyze_step_backend_fault env1 w src m img1 Hmt Hsrc Hl Hd1 Hw1 Hh1 Hf1)
    as (Hp1 & Hmt1 & Hip1 & Hl1 & Ha1).
  assert (Hsrc1 : truthy (imagePreview (ui (step w (Analyze env1)))) = Some src)
    by (rewrite Hip1; exact Hsrc).
  destruct (analyze_step_publishes env2 (step w (Analyze env1)) src m img2
              Hmt1 Hsrc1 Hl1 Hd2 Hw2 Hh2 Hbf2 Hdf2)
    as (Hr2 & _ & _ & Hl2 & Ha2 & _).
  cbn [foldl]. split; [exact Hp1|]. split; [exact Ha1|].
  split; [exact (analyzeEnabled_true _ src m Hsrc1 (proj1 Hmt1) Hl1)|].
  split; [exact Hr2|]. split; [exact Hl2|]. congruence.
Qed.

Lemma mounted_session_uploaded :
  exists m,
    mounted (session false zeroInit [Upload (Some "ecg")]) m /\
    truthy (imagePreview (ui (session false zeroInit [Upload (Some "ecg")])))
    = Some "ecg" /\
    loading (ui (session false zeroInit [Upload (Some "ecg")])) = false /\
    alerts (session false zeroInit [Upload (Some "ecg")]) = [].
Proof.
  destruct (mounted_mount zeroInit) as (m & Hmt). exists m.
  split; [exact (mounted_run [Upload (Some "ecg")] _ m Hmt)|].
  destruct (session_uploaded zeroInit "ecg") as (m' & -> & _).
  repeat split; reflexivity.
Qed.

Lemma analysis_succeeds_after_a_failure_witness :
  let w := session false zeroInit [Upload (Some "ecg")] in
  prediction (ui (step w (Analyze faultyEnv))) = prediction (ui w) /\
  alerts (step w (Analyze faultyEnv))
  = alerts w ++ ["Error analyzing ECG image. Please try again."] /\
  analyzeEnabled (ui (step w (Analyze faultyEnv))) = true /\
  (exists y,
      analysisOutput calmEnv (step w (Analyze faultyEnv)) y /\
      prediction (ui (foldl step w [Analyze faultyEnv; Analyze calmEnv]))
      = Some (makeResult (values y) (random calmEnv))) /\
  loading (ui (foldl step w [Analyze faultyEnv; Analyze calmEnv])) = false /\
  alerts (foldl step w [Analyze faultyEnv; Analyze calmEnv])
  = alerts w ++ ["Error analyzing ECG image. Please try again."].
Proof.
  cbv zeta. destruct mounted_session_uploaded as (m & Hmt & Hsrc & Hl & _).
  apply (analysis_succeeds_after_a_failure faultyEnv calmEnv _ "ecg" m
           (solidImage 1 1 0) (solidImage 1 1 0) Hmt Hsrc Hl);
    first [reflexivity | lia].
Defined.

(** Each analysis in which nothing fails leaves four more tensors
    registered than it found, so [n] of them in a row leave [4 * n] more:
    the count grows without bound over a session. *)
Theorem successful_analyses_leak_linearly (env : Env) (w : World) (src : string)
  (m : LayersModel) (img : ImageData) (n : nat) :
  mounted w m ->
  truthy (imagePreview (ui w)) = Some src ->
  loading (ui w) = false ->
  decode env src = Some img -> 0 < width img -> 0 < height img ->
  backend_fault env = false -> data_fault env = false ->
  numTensors (engine (foldl step w (replicate n (Analyze env))))
  = (4 * n + numTensors (engine w))%nat.
Proof.
  intros Hmt Hsrc Hl Hd Hw Hh Hbf Hdf. revert w Hmt Hsrc Hl.
  induction n as [|n IH]; intros w Hmt Hsrc Hl; [reflexivity|].
  cbn [replicate foldl].
  destruct (analyze_step_publishes env w src m img Hmt Hsrc Hl Hd Hw Hh Hbf Hdf)
    as (_ & Hmt1 & Hip1 & Hl1 & _ & Hn1).
  rewrite IH; [lia|exact Hmt1|rewrite Hip1; exact Hsrc|exact Hl1].
Qed.

Lemma successful_analyses_leak_linearly_witness :
  let w := session false zeroInit [Upload (Some "ecg")] in
  numTensors (engine (foldl step w (replicate 3 (Analyze calmEnv))))
  = (4 * 3 + numTensors (engine w))%nat.
Proof.
  cbv zeta. destruct mounted_session_uploaded as (m & Hmt & Hsrc & Hl & _).
  apply (successful_analyses_leak_linearly calmEnv _ "ecg" m (solidImage 1 1 0) 3
           Hmt Hsrc Hl);
    first [reflexivity | lia].
Defined.

(** ** [analyzeECG] turn by turn *)

(** Taken without anything in between, the click and the two turns that
    follow it are one call of [analyzeECG]: the page ends in the same
    state, with no task left when the call completes and with the suspended
    task when it does not. *)
Lemma three_turns_make_one_analysis (env : Env) (w : World) :
  world (foldl act (mkPage w []) [UserClick env; Settle 0; Settle 0])
  = step w (Analyze env) /\
  tasks (foldl act (mkPage w []) [UserClick env; Settle 0; Settle 0])
  = (if analyzeEnabled (ui w)
     then match fst (analyzeECG env w) with
          | Pending => [Suspended]
          | _ => []
          end
     else []).
Proof.
  cbn [foldl act step world tasks]. destruct (analyzeEnabled (ui w)); [|auto].
  unfold analyzeClick, analyzeECG.
  destruct (truthy (imagePreview (ui w))) as [src|]; [|auto].
  destruct (model (ui w)) as [m|]; [|auto].
  cbn [world tasks app lookup list_lookup resume engine ui console alerts].
  destruct (preprocessImage (decode env) src (engine w)) as [[t|msg|] e1];
    cbn [world tasks list_insert insert lookup list_lookup resume fst snd]; auto.
  unfold analyzeBody.
  destruct (predict (backend_fault env) m t e1) as [[y|msg] e2];
    cbn [world tasks list_insert insert lookup list_lookup resume delete
         list_delete engine ui console alerts fst snd catchFinally]; auto.
  destruct (dataOf (data_fault env) y e2) as [[pa|msg] e3];
    cbn [world tasks delete list_delete catchFinally ui engine console alerts
         fst snd]; auto.
Qed.

Lemma analyzeEnabled_inv (s : State) :
  analyzeEnabled s = true ->
  exists src m,
    truthy (imagePreview s) = Some src /\ model s = Some m /\ loading s = false.
Proof.
  unfold analyzeEnabled. intros H. apply andb_true_iff in H as [H1 H2].
  apply bool_decide_eq_true in H1 as [src Hsrc].
  apply negb_true_iff, orb_false_iff in H2 as [Hl H3].
  apply negb_false_iff, bool_decide_eq_true in H3 as [m Hm].
  eauto.
Qed.

(** What one turn of a task does to the page. *)
Lemma resume_effect (t : Task) (w : World) :
  engine_ok (engine w) -> task_ok (engine w) t -> loading (ui w) = true ->
  model (ui (fst (resume t w))) = model (ui w) /\
  vars (engine (fst (resume t w))) = vars (engine w) /\
  engine_ok (engine (fst (resume t w))) /\
  match snd (resume t w) with
  | Some t1 => task_ok (engine (fst (resume t w))) t1 /\
               loading (ui (fst (resume t w))) = true
  | None => loading (ui (fst (resume t w))) = false
  end.
Proof.
  intros Hok Htask Hl. destruct t as [env src m|env it pr|]; cbn [resume].
  - destruct (preprocessImage_cases (decode env) src (engine w))
      as [(img & t & e1 & _ & _ & _ & -> & Ht & _ & Hg)|(_ & ->)].
    + pose proof (engine_ok_grown 5 _ _ Hok Hg) as Hok1.
      destruct Hg as (Hn & _ & Hv & _).
      destruct (predict_engine (backend_fault env) m t e1)
        as [(msg & ->)|(y & -> & Hy)];
        cbn [fst snd ui engine catchFinally model loading setLoading vars
             countPass afterPredict task_ok].
      * split; [reflexivity|]. split; [exact Hv|].
        split; [apply (engine_ok_countPass _ Hok1)|reflexivity].
      * split; [reflexivity|]. split; [exact Hv|].
        split; [apply (engine_ok_afterPredict _ Hok1)|].
        split; [|exact Hl]. rewrite Hv, Ht, Hy, Hn.
        split; apply engine_ok_no_var; first [exact Hok | lia].
    + cbn [fst snd ui engine task_ok]. auto.
  - destruct Htask as [Hit Hpr]. unfold dataOf.
    destruct (data_fault env);
      [cbn [throw fst snd ui engine catchFinally model loading setLoading];
       auto|].
    unfold bind, use. destruct (decide (tid pr ∈ live (engine w)));
      cbn [ret fst snd ui engine catchFinally model loading setLoading
           setPrediction]; [|auto].
    split; [reflexivity|]. split; [|split; [|reflexivity]].
    + cbn [dispose vars]. rewrite (delete_id (vars (engine w))) by exact Hit.
      now apply delete_id.
    + apply (engine_ok_dispose pr (dispose it (engine w))),
        (engine_ok_dispose it (engine w)), Hok.
  - cbn [fst snd task_ok]. auto.
Qed.

Lemma upload_keeps_loading (w : World) (file : option string) :
  loading (ui (step w (Upload file))) = loading (ui w) /\
  engine (step w (Upload file)) = engine w.
Proof.
  cbn [step]. destruct (uploadEnabled (ui w)); [|auto].
  destruct file; cbn; auto.
Qed.

Lemma act_invariant (p : Page) (a : Action) :
  single_flight p -> engine_ok (engine (world p)) ->
  single_flight (act p a) /\
  engine_ok (engine (world (act p a))) /\
  model (ui (world (act p a))) = model (ui (world p)) /\
  vars (engine (world (act p a))) = vars (engine (world p)).
Proof.
  intros Hsf Hok. destruct a as [file|env|i]; cbn [act].
  - destruct (step_stable (world p) (Upload file) Hok) as (Hm & _ & Hv & _ & Hok').
    destruct (upload_keeps_loading (world p) file) as [Hl He].
    split; [|auto]. unfold single_flight. cbn [world tasks]. rewrite Hl, He.
    exact Hsf.
  - destruct (analyzeEnabled (ui (world p))) eqn:Hen; [|auto].
    apply analyzeEnabled_inv in Hen as (src & m & Hsrc & Hm & Hl).
    unfold analyzeClick. rewrite Hsrc, Hm. cbn [world tasks ui engine model].
    split; [|auto]. right.
    destruct Hsf as [[-> _]|(t & _ & _ & Hl')]; [|congruence].
    eexists. split; [reflexivity|]. split; [exact I|reflexivity].
  - destruct Hsf as [[Ht Hl]|(t & Ht & Htask & Hl)].
    + rewrite Ht. rewrite lookup_nil.
      split; [left; auto|auto].
    + rewrite Ht. destruct i as [|i];
        [change ([t] !! 0%nat) with (Some t)
        |change ([t] !! S i) with (@nil Task !! i)].
      * destruct (resume_effect t (world p) Hok Htask Hl) as (Hm & Hv & Hok' & Hnext).
        destruct (resume t (world p)) as [w1 [t1|]];
          cbn [fst snd world tasks] in *.
        -- split; [|auto]. right. exists t1. cbn. tauto.
        -- split; [|auto]. left. auto.
      * rewrite lookup_nil. split; [|auto]. right. exists t. rewrite Ht. auto.
Qed.

Lemma run_invariant (acts : list Action) :
  forall p,
    single_flight p -> engine_ok (engine (world p)) ->
    single_flight (foldl act p acts) /\
    model (ui (world (foldl act p acts))) = model (ui (world p)) /\
    vars (engine (world (foldl act p acts))) = vars (engine (world p)).
Proof.
  induction acts as [|a acts IH]; intros p Hsf Hok; cbn [foldl]; [auto|].
  destruct (act_invariant p a Hsf Hok) as (Hsf1 & Hok1 & Hm1 & Hv1).
  destruct (IH _ Hsf1 Hok1) as (Hsf2 & Hm2 & Hv2).
  repeat split; [exact Hsf2|congruence|congruence].
Qed.

(** Whatever the order in which uploads, clicks and settling promises come:
    at most one analysis is in flight, the loading flag is set exactly
    while one is and keeps the analyze button disabled, and the model and
    the variables of the engine are those of the mount. *)
Theorem interleaved_session_single_flight (fault : bool) (init : nat -> Z -> R)
  (acts : list Action) :
  single_flight (foldl act (mkPage (mount fault init) []) acts) /\
  (length (tasks (foldl act (mkPage (mount fault init) []) acts)) <= 1)%nat /\
  (tasks (foldl act (mkPage (mount fault init) []) acts) <> [] ->
   analyzeEnabled (ui (world (foldl act (mkPage (mount fault init) []) acts)))
   = false) /\
  model (ui (world (foldl act (mkPage (mount fault init) []) acts)))
  = model (ui (mount fault init)) /\
  vars (engine (world (foldl act (mkPage (mount fault init) []) acts)))
  = vars (engine (mount fault init)).
Proof.
  assert (Hsf0 : single_flight (mkPage (mount fault init) [])).
  { left. split; [reflexivity|]. cbn [world]. destruct fault.
    - now rewrite mount_failed.
    - destruct (mount_spec init) as (m & _ & _ & _ & _ & _ & _ & -> & _).
      reflexivity. }
  destruct (run_invariant acts (mkPage (mount fault init) []) Hsf0
              (mount_engine_ok fault init)) as (Hsf & Hm & Hv).
  split; [exact Hsf|]. split; [|split; [|split; [exact Hm|exact Hv]]].
  - destruct Hsf as [[-> _]|(t & -> & _)]; cbn; lia.
  - intros Hne. destruct Hsf as [[Ht _]|(t & _ & _ & Hl)]; [contradiction|].
    unfold analyzeEnabled. rewrite Hl. cbn [orb negb]. apply andb_false_r.
Qed.

(** An upload while an analysis is in flight does not cancel it. Whether the
    new picture arrives before the old one has loaded or while the output
    is being read, the handler goes on with the picture it captured at the
    click: the page ends with no task left, showing the new picture
    together with the result computed from the old one. *)
Theorem upload_during_analysis_keeps_old_result (env : Env) (w : World)
  (src next : string) (m : LayersModel) (img : ImageData) (early : bool) :
  mounted w m ->
  truthy (imagePreview (ui w)) = Some src ->
  loading (ui w) = false ->
  modelLoading (ui w) = false ->
  decode env src = Some img -> 0 < width img -> 0 < height img ->
  backend_fault env = false -> data_fault env = false ->
  exists t e1 p0 p1,
    preprocessImage (decode env) src (engine w) = (Resolved t, e1) /\
    predict (backend_fault env) m t e1
    = (Ok (mkTensor (next_id e1) [1; 2] [p0; p1]), afterPredict e1) /\
    forall p,
      p = foldl act (mkPage w [])
            (if early
             then [UserClick env; UserUpload (Some next); Settle 0; Settle 0]
             else [UserClick env; Settle 0; UserUpload (Some next); Settle 0]) ->
      tasks p = [] /\
      imagePreview (ui (world p)) = Some next /\
      loading (ui (world p)) = false /\
      prediction (ui (world p)) = Some (makeResult [p0; p1] (random env)).
Proof.
  intros (Hm & (Hc & Hb & Hly) & Hok) Hsrc Hl Hml Hd Hw Hh Hbf Hdf.
  destruct (pixelsToTensor_ok img (engine w) Hw Hh)
    as (t & e1 & Hrun & Ht & Hs & _ & Hg).
  assert (Hpre : preprocessImage (decode env) src (engine w) = (Resolved t, e1)).
  { unfold preprocessImage. now rewrite Hd, Hrun. }
  assert (Hready : ready m e1).
  { destruct Hg as (_ & _ & Hv & _). unfold ready. rewrite Hv. auto. }
  assert (Hlive : tid t ∈ live e1).
  { rewrite Ht. exact (grown_live_last 4 _ _ Hg). }
  destruct (predict_spec m t e1 Hready Hlive Hs) as (p0 & p1 & Hp & _).
  set (y := mkTensor (next_id e1) [1; 2] [p0; p1]) in *.
  assert (Hdata : dataOf (data_fault env) y (afterPredict e1)
                  = (Ok [p0; p1], afterPredict e1)).
  { rewrite Hdf. unfold dataOf. erewrite bind_ok; [reflexivity|].
    apply use_live. cbn [y tid live afterPredict]. apply fresh_in. }
  exists t, e1, p0, p1. rewrite Hbf. split; [exact Hpre|]. split; [exact Hp|].
  intros p ->.
  assert (Hclick : act (mkPage w []) (UserClick env)
                   = mkPage (mkWorld (setLoading true (ui w)) (engine w)
                                     (console w) (alerts w))
                            [AwaitImage env src m]).
  { cbn [act world tasks]. rewrite (analyzeEnabled_true (ui w) src m Hsrc Hm Hl).
    unfold analyzeClick. now rewrite Hsrc, Hm. }
  assert (Hupload : forall s e c a ts,
             modelLoading s = false ->
             act (mkPage (mkWorld s e c a) ts) (UserUpload (Some next))
             = mkPage (mkWorld (setPrediction None (setImagePreview (Some next) s))
                               e c a) ts).
  { intros s e c a ts Hs'. cbn [act world tasks step ui]. unfold uploadEnabled.
    now rewrite Hs'. }
  assert (Himage : forall s c a,
             act (mkPage (mkWorld s (engine w) c a) [AwaitImage env src m]) (Settle 0)
             = mkPage (mkWorld s (afterPredict e1) c a) [AwaitData env t y]).
  { intros s c a. cbn [act world tasks].
    change ([AwaitImage env src m] !! 0%nat) with (Some (AwaitImage env src m)).
    cbn [resume engine]. rewrite Hpre, Hbf, Hp. reflexivity. }
  assert (Hread : forall s c a,
             act (mkPage (mkWorld s (afterPredict e1) c a) [AwaitData env t y])
                 (Settle 0)
             = mkPage (mkWorld
                         (setLoading false
                            (setPrediction (Some (makeResult [p0; p1] (random env))) s))
                         (dispose y (dispose t (afterPredict e1))) c a) []).
  { intros s c a. cbn [act world tasks].
    change ([AwaitData env t y] !! 0%nat) with (Some (AwaitData env t y)).
    cbn [resume engine]. rewrite Hdata. reflexivity. }
  destruct early; cbn [foldl]; rewrite Hclick.
  - rewrite Hupload by exact Hml. rewrite Himage, Hread. cbn. auto.
  - rewrite Himage. rewrite Hupload by exact Hml. rewrite Hread. cbn. auto.
Qed.

Lemma upload_during_analysis_keeps_old_result_witness :
  exists t e1 p0 p1,
    let w := session false zeroInit [Upload (Some "ecg")] in
    preprocessImage (decode calmEnv) "ecg" (engine w) = (Resolved t, e1) /\
    predict (backend_fault calmEnv) (default (mkLayersModel [] [] None) (model (ui w)))
            t e1
    = (Ok (mkTensor (next_id e1) [1; 2] [p0; p1]), afterPredict e1) /\
    forall p,
      p = foldl act (mkPage w [])
            [UserClick calmEnv; UserUpload (Some "next"); Settle 0; Settle 0] ->
      tasks p = [] /\
      imagePreview (ui (world p)) = Some "next" /\
      loading (ui (world p)) = false /\
      prediction (ui (world p)) = Some (makeResult [p0; p1] (random calmEnv)).
Proof.
  destruct mounted_session_uploaded as (m & Hmt & Hsrc & Hl & _).
  assert (Hml : modelLoading (ui (session false zeroInit [Upload (Some "ecg")]))
                = false).
  { destruct (session_uploaded zeroInit "ecg") as (m' & -> & _). reflexivity. }
  assert (Hm : model (ui (session false zeroInit [Upload (Some "ecg")])) = Some m)
    by apply Hmt.
  cbv zeta. rewrite Hm. cbn [default].
  apply (upload_during_analysis_keeps_old_result calmEnv _ "ecg" "next" m
           (solidImage 1 1 0) true Hmt Hsrc Hl Hml);
    first [reflexivity | lia].
Defined.

(** ** The loading flag and the tensors after an analysis *)

Lemma analyzeECG_completes (env : Env) (w : World) :
  decodable env -> loading (ui w) = false ->
  fst (analyzeECG env w) = Resolved tt /\
  loading (ui (snd (analyzeECG env w))) = false.
Proof.
  intros Hdec Hl. unfold analyzeECG.
  destruct (truthy (imagePreview (ui w))) as [src|]; [|auto].
  destruct (model (ui w)) as [m|]; [|auto].
  destruct (Hdec src) as (img & Hd & Hw & Hh).
  destruct (pixelsToTensor_ok img (engine w) Hw Hh) as (t & e1 & Hrun & _).
  unfold preprocessImage. rewrite Hd, Hrun.
  destruct (analyzeBody env m t (setLoading true (ui w)) e1) as [[s2|msg] e2];
    auto.
Qed.

(** When every picture that is analysed decodes, the page never stays
    busy: after every event of the session the loading flag is cleared,
    whether the analyses published a result or ended in the alert. *)
Theorem loading_cleared_when_pictures_decode (fault : bool)
  (init : nat -> Z -> R) (evs : list Event) :
  Forall decodes evs ->
  loading (ui (session fault init evs)) = false.
Proof.
  intros Hall. unfold session.
  assert (H0 : loading (ui (mount fault init)) = false).
  { destruct fault.
    - now rewrite mount_failed.
    - destruct (mount_spec init) as (m & _ & _ & _ & _ & _ & _ & -> & _).
      reflexivity. }
  revert H0. generalize (mount fault init).
  induction Hall as [|ev evs Hev _ IH]; intros w Hl; cbn [foldl]; [exact Hl|].
  apply IH. destruct ev as [file|env]; cbn [step].
  - destruct (uploadEnabled (ui w)); [|exact Hl].
    destruct file; [exact Hl|exact Hl].
  - destruct (analyzeEnabled (ui w)); [|exact Hl].
    now apply analyzeECG_completes.
Qed.

Lemma decodable_onePixel (b1 b2 : bool) (rnd : nat -> spec_float) :
  decodable (mkEnv onePixel b1 b2 rnd).
Proof. intros src. exists (solidImage 1 1 0). repeat split; reflexivity. Qed.

Lemma loading_cleared_when_pictures_decode_witness :
  Forall decodes [Upload (Some "ecg"); Analyze calmEnv; Analyze faultyEnv] /\
  loading (ui (session false zeroInit
                 [Upload (Some "ecg"); Analyze calmEnv; Analyze faultyEnv]))
  = false.
Proof.
  assert (H : Forall decodes [Upload (Some "ecg"); Analyze calmEnv; Analyze faultyEnv]).
  { repeat constructor; apply decodable_onePixel. }
  split; [exact H|].
  exact (loading_cleared_when_pictures_decode false zeroInit _ H).
Defined.

Lemma size_fresh_one (n : nat) (s : gset nat) :
  (forall i, i ∈ s -> (i < n)%nat) ->
  size ({[ n ]} ∪ s : gset nat) = S (size s).
Proof.
  intros Hs. rewrite size_union.
  - now rewrite size_singleton.
  - intros x Hx1 Hx2. apply elem_of_singleton in Hx1. apply Hs in Hx2. lia.
Qed.

(** Whenever an analysis on a mounted page ends in the alert, the tensors
    it made are still registered. Either the backend raised during the
    forward pass, and the five tensors of [preprocessImage] are left; or
    the pass went through and reading its output raised, and the output
    tensor is left as well, six in all. *)
Theorem alerted_analysis_leaks (env : Env) (w : World) (m : LayersModel) :
  mounted w m ->
  alerts (snd (analyzeECG env w)) <> alerts w ->
  (backend_fault env = true /\
   forward_passes (engine (snd (analyzeECG env w))) = S (forward_passes (engine w)) /\
   numTensors (engine (snd (analyzeECG env w))) = (5 + numTensors (engine w))%nat) \/
  (backend_fault env = false /\ data_fault env = true /\
   forward_passes (engine (snd (analyzeECG env w))) = S (forward_passes (engine w)) /\
   numTensors (engine (snd (analyzeECG env w))) = (6 + numTensors (engine w))%nat).
Proof.
  intros (Hm & (Hc & Hb & Hly) & Hok) Ha.
  destruct (truthy (imagePreview (ui w))) as [src|] eqn:Hsrc;
    [|rewrite analyzeECG_guard in Ha by auto; contradiction].
  revert Ha. unfold analyzeECG. rewrite Hsrc, Hm.
  destruct (preprocessImage_cases (decode env) src (engine w))
    as [(img & t & e1 & _ & _ & _ & -> & Ht & Hs & Hg)|(_ & ->)];
    [|cbn [snd alerts]; contradiction].
  pose proof (engine_ok_grown 5 _ _ Hok Hg) as [Hlt1 _].
  assert (H5 : size (live e1) = (5 + size (live (engine w)))%nat).
  { destruct Hg as (_ & -> & _). apply size_fresh_block, Hok. }
  assert (Hfp : forward_passes e1 = forward_passes (engine w)) by apply Hg.
  unfold analyzeBody, numTensors.
  destruct (backend_fault env) eqn:Hbf.
  - rewrite predict_unfold. cbn [snd engine alerts live forward_passes countPass].
    intros _. left. rewrite Hfp, H5. auto.
  - assert (Hready : ready m e1).
    { destruct Hg as (_ & _ & Hv & _). unfold ready. rewrite Hv. auto. }
    assert (Hlive : tid t ∈ live e1).
    { rewrite Ht. exact (grown_live_last 4 _ _ Hg). }
    destruct (predict_spec m t e1 Hready Hlive Hs) as (p0 & p1 & -> & _).
    unfold dataOf. destruct (data_fault env).
    + cbn [throw snd engine alerts live forward_passes afterPredict].
      intros _. right. rewrite size_fresh_one by exact Hlt1.
      rewrite Hfp, H5. auto.
    + erewrite bind_ok
        by (apply use_live; cbn [tid live afterPredict]; apply fresh_in).
      cbn [ret snd alerts]. contradiction.
Qed.

Lemma analyzeECG_data_fault_alerts (env : Env) (w : World) (src : string)
  (m : LayersModel) (img : ImageData) :
  truthy (imagePreview (ui w)) = Some src ->
  model (ui w) = Some m ->
  ready m (engine w) ->
  decode env src = Some img -> 0 < width img -> 0 < height img ->
  backend_fault env = false -> data_fault env = true ->
  alerts (snd (analyzeECG env w))
  = alerts w ++ ["Error analyzing ECG image. Please try again."].
Proof.
  intros Hsrc Hm (Hc & Hb & Hl) Hd Hw Hh Hbf Hdf.
  destruct (pixelsToTensor_ok img (engine w) Hw Hh)
    as (t & e1 & Hrun & Ht & Hs & _ & Hg).
  assert (Hready : ready m e1).
  { destruct Hg as (_ & _ & Hv & _). unfold ready. rewrite Hv. auto. }
  assert (Hlive : tid t ∈ live e1).
  { rewrite Ht. exact (grown_live_last 4 _ _ Hg). }
  destruct (predict_spec m t e1 Hready Hlive Hs) as (p0 & p1 & Hp & _).
  unfold analyzeECG, preprocessImage. rewrite Hsrc, Hm, Hd, Hrun.
  unfold analyzeBody. rewrite Hbf, Hp, Hdf. reflexivity.
Qed.

Lemma alerted_analysis_leaks_witness :
  let w := session false zeroInit [Upload (Some "ecg")] in
  (alerts (snd (analyzeECG readFaultEnv w)) <> alerts w /\
   alerts (snd (analyzeECG faultyEnv w)) <> alerts w) /\
  ((backend_fault readFaultEnv = true /\
    forward_passes (engine (snd (analyzeECG readFaultEnv w)))
    = S (forward_passes (engine w)) /\
    numTensors (engine (snd (analyzeECG readFaultEnv w)))
    = (5 + numTensors (engine w))%nat) \/
   (backend_fault readFaultEnv = false /\ data_fault readFaultEnv = true /\
    forward_passes (engine (snd (analyzeECG readFaultEnv w)))
    = S (forward_passes (engine w)) /\
    numTensors (engine (snd (analyzeECG readFaultEnv w)))
    = (6 + numTensors (engine w))%nat)).
Proof.
  cbv zeta.
  destruct mounted_session_uploaded as (m & Hmt & Hsrc & _ & Hal).
  assert (Ha : alerts (snd (analyzeECG readFaultEnv
                              (session false zeroInit [Upload (Some "ecg")])))
               <> alerts (session false zeroInit [Upload (Some "ecg")])).
  { rewrite (analyzeECG_data_fault_alerts readFaultEnv _ "ecg" m (solidImage 1 1 0)
               Hsrc (proj1 Hmt) (proj1 (proj2 Hmt)));
      try reflexivity.
    rewrite Hal. discriminate. }
  assert (Hb : alerts (snd (analyzeECG faultyEnv
                              (session false zeroInit [Upload (Some "ecg")])))
               <> alerts (session false zeroInit [Upload (Some "ecg")])).
  { destruct (analyzeECG_backend_fault faultyEnv _ "ecg" m (solidImage 1 1 0)
                Hsrc (proj1 Hmt)) as (e1 & _ & ->); try reflexivity.
    cbn [snd alerts]. rewrite Hal. discriminate. }
  split; [split; [exact Ha|exact Hb]|].
  exact (alerted_analysis_leaks readFaultEnv _ m Hmt Ha).
Defined.

(** ** Building a model again *)

Lemma layers_ok_weaken (vs vs' : gmap nat (Tensor R)) (ls : list Layer) :
  vs ⊆ vs' -> forall sh, layers_ok vs ls sh -> layers_ok vs' ls sh.
Proof.
  intros Hsub. induction ls as [|l ls IH]; intros sh; cbn [layers_ok]; [auto|].
  intros (sh' & Hc & Hl & Hr). exists sh'.
  split; [exact Hc|]. split; [now apply (layer_ok_mono vs vs')|now apply IH].
Qed.

Lemma call_weaken (l : Layer) (x : Array) (e1 e2 : Engine) (sh : list Z) :
  layer_ok (vars e1) l sh -> is_Some (computeOutputShape (config l) sh) ->
  vars e1 ⊆ vars e2 ->
  fst (call false l x e2) = fst (call false l x e1).
Proof.
  unfold layer_ok, call. intros Hok [sh' Hc] Hsub.
  destruct (config l) as [ish k f act|p| |rate|u act]; try reflexivity.
  - cbn in Hc. destruct sh as [|h [|w [|c [|]]]]; try discriminate.
    cbn [weightShapes] in Hok.
    destruct Hok as (ki & bi & K & B & Hk & Hb & HK & _ & HB).
    rewrite !bind_readVar, Hk, HK, (lookup_weaken _ _ _ _ HK Hsub).
    rewrite !bind_readVar, Hb, HB, (lookup_weaken _ _ _ _ HB Hsub). reflexivity.
  - cbn in Hc. destruct sh as [|n [|]]; try discriminate.
    cbn [weightShapes] in Hok.
    destruct Hok as (ki & bi & K & B & Hk & Hb & HK & _ & HB).
    rewrite !bind_readVar, Hk, HK, (lookup_weaken _ _ _ _ HK Hsub).
    rewrite !bind_readVar, Hb, HB, (lookup_weaken _ _ _ _ HB Hsub). reflexivity.
Qed.

Lemma forward_weaken (ls : list Layer) :
  forall (x : Array) (e1 e2 : Engine) (b : Z) (sh : list Z),
    layers_ok (vars e1) ls sh -> dims x = b :: sh -> vars e1 ⊆ vars e2 ->
    fst (forward false ls x e2) = fst (forward false ls x e1).
Proof.
  induction ls as [|l ls IH]; intros x e1 e2 b sh Hok Hd Hsub; [reflexivity|].
  destruct Hok as (sh1 & Hc & Hl & Hr).
  destruct (call_shape l x e1 b sh sh1 Hl Hc Hd) as (y & Hy & Hdy).
  pose proof (call_weaken l x e1 e2 sh Hl (ex_intro _ sh1 Hc) Hsub) as Hw.
  pose proof (call_inference_engine l x e2) as He2.
  cbn [forward]. unfold bind. rewrite Hy in Hw |- *.
  destruct (call false l x e2) as [o2 e2']. cbn [fst snd] in Hw, He2. subst o2 e2'.
  now apply (IH y e1 e2 b sh1).
Qed.

(** The variables a build creates are new: their ids are handed out by the
    build, and the engine holds them afterwards. *)
Lemma buildLayer_weights (init : nat -> Z -> R) (i : nat) (cfg : LayerConfig)
  (sh : list Z) (e e' : Engine) (l : Layer) :
  buildLayer init i cfg sh e = (Ok l, e') ->
  (next_id e <= next_id e')%nat /\
  (forall j, is_Some (vars e !! j) -> is_Some (vars e' !! j)) /\
  forall k, k ∈ option_list (kernel l) ++ option_list (bias l) ->
            (next_id e <= k)%nat /\ is_Some (vars e' !! k).
Proof.
  unfold buildLayer. destruct (weightShapes cfg sh) as [[ksh bsh]|].
  - unfold bind, addWeight, ret. intros [= <- <-].
    cbn [kernel bias option_list app next_id vars]. split; [lia|]. split.
    + intros j Hj. rewrite !lookup_insert_is_Some. tauto.
    + intros k Hk. apply elem_of_cons in Hk as [->|Hk];
        [|apply elem_of_cons in Hk as [->|Hk]; [|now apply elem_of_nil in Hk]].
      * split; [lia|]. rewrite !lookup_insert_is_Some. tauto.
      * split; [lia|]. rewrite lookup_insert_is_Some. tauto.
  - unfold ret. intros [= <- <-]. cbn [kernel bias option_list app].
    split; [lia|]. split; [auto|]. intros k Hk. now apply elem_of_nil in Hk.
Qed.

Lemma buildLayers_weights (init : nat -> Z -> R) (cfgs : list LayerConfig) :
  forall (i : nat) (sh : list Z) (e e' : Engine) (ls : list Layer),
    buildLayers init i cfgs sh e = (Ok ls, e') ->
    (next_id e <= next_id e')%nat /\
    (forall j, is_Some (vars e !! j) -> is_Some (vars e' !! j)) /\
    forall k, k ∈ flat_map (fun l => option_list (kernel l) ++ option_list (bias l)) ls ->
              (next_id e <= k)%nat /\ is_Some (vars e' !! k).
Proof.
  induction cfgs as [|cfg rest IH]; intros i sh e e' ls; cbn [buildLayers].
  - unfold ret. intros [= <- <-]. cbn [flat_map].
    split; [lia|]. split; [auto|]. intros k Hk. now apply elem_of_nil in Hk.
  - destruct (computeOutputShape cfg sh) as [sh'|]; [|discriminate].
    unfold bind at 1.
    destruct (buildLayer init i cfg sh e) as [[l|msg] e1] eqn:H1; [|discriminate].
    unfold bind at 1.
    destruct (buildLayers init (S i) rest sh' e1) as [[ls'|msg] e2] eqn:H2;
      [|discriminate].
    unfold ret. intros [= <- <-].
    destruct (buildLayer_weights _ _ _ _ _ _ _ H1) as (Hn1 & Hk1 & Hw1).
    destruct (IH _ _ _ _ _ H2) as (Hn2 & Hk2 & Hw2).
    split; [lia|]. split; [auto|].
    intros k Hk. cbn [flat_map] in Hk. apply elem_of_app in Hk as [Hk|Hk].
    + destruct (Hw1 k Hk). auto.
    + destruct (Hw2 k Hk). split; [lia|assumption].
Qed.

(** [loadModel] on an available backend: the page holds a model whose
    variables the engine did not hold before and holds now. *)
Lemma loadModel_weights (init : nat -> Z -> R) (w : World) :
  engine_ok (engine w) ->
  exists m,
    model (ui (snd (loadModel false init w))) = Some m /\
    weights m <> [] /\
    forall k, k ∈ weights m ->
              vars (engine w) !! k = None /\
              is_Some (vars (engine (snd (loadModel false init w))) !! k).
Proof.
  intros Hok.
  destruct (sequential_spec init (engine w) Hok)
    as (m & e' & Hs & Hc & _ & _ & Hl & _).
  exists (compile loadModel_compile m).
  unfold loadModel. rewrite Hs. cbn [snd ui engine model setModel setModelLoading].
  split; [reflexivity|].
  unfold weights. cbn [compile layers].
  split.
  - destruct (layers m) as [|l ls]; [discriminate Hc|].
    injection Hc as Hc _. destruct Hl as (sh' & _ & Hl & _).
    unfold layer_ok in Hl. rewrite Hc in Hl. cbn [weightShapes] in Hl.
    destruct Hl as (k & b & K & B & Hk & _). cbn [flat_map]. rewrite Hk.
    discriminate.
  - revert Hs. unfold sequential.
    change loadModel_layers with
      (conv2d (Some [224; 224; 3]) 3 32 relu :: tl loadModel_layers) at 1.
    cbv iota. unfold bind.
    destruct (buildLayers init 0 _ [224; 224; 3] (engine w)) as [[ls|msg] e1] eqn:Hb;
      [|discriminate].
    unfold ret. intros [= <- <-]. cbn [layers].
    destruct (buildLayers_weights _ _ _ _ _ _ _ Hb) as (_ & _ & Hw).
    intros k Hk. destruct (Hw k Hk) as [Hn Hin].
    split; [now apply engine_ok_no_var|exact Hin].
Qed.

Lemma mount_weights (init : nat -> Z -> R) :
  exists m,
    model (ui (mount false init)) = Some m /\
    weights m <> [] /\
    forall k, k ∈ weights m -> is_Some (vars (engine (mount false init)) !! k).
Proof.
  destruct (loadModel_weights init initial engine_ok_initial) as (m & Hm & Hne & Hw).
  exists m. unfold mount. split; [exact Hm|]. split; [exact Hne|].
  intros k Hk. apply (Hw k Hk).
Qed.

(** Running [loadModel] a second time builds a second, independent model:
    the page then holds the new model, ready to predict, made of variables
    that did not exist before and that the first model does not use; every
    variable of the first model is still in the engine with its contents
    (nothing disposes them), and the first model still predicts on the same
    data what it predicted before. *)
Theorem loadModel_again_leaves_first_model_intact (init1 init2 : nat -> Z -> R)
  (m1 m2 : LayersModel) (x1 x2 : Tensor spec_float) (e1 e2 : Engine) :
  model (ui (mount false init1)) = Some m1 ->
  model (ui (snd (loadModel false init2 (mount false init1)))) = Some m2 ->
  vars e1 = vars (engine (mount false init1)) ->
  vars e2 = vars (engine (snd (loadModel false init2 (mount false init1)))) ->
  tid x1 ∈ live e1 -> tid x2 ∈ live e2 ->
  shape x1 = [1; 224; 224; 3] -> shape x2 = shape x1 -> values x2 = values x1 ->
  fst (loadModel false init2 (mount false init1)) = Resolved tt /\
  mounted (snd (loadModel false init2 (mount false init1))) m2 /\
  weights m1 <> [] /\ weights m2 <> [] /\
  (forall k, k ∈ weights m1 -> is_Some (vars (engine (mount false init1)) !! k)) /\
  (forall k, k ∈ weights m2 ->
             vars (engine (mount false init1)) !! k = None /\
             is_Some (vars (engine (snd (loadModel false init2 (mount false init1)))) !! k) /\
             k ∉ weights m1) /\
  ready m1 (engine (snd (loadModel false init2 (mount false init1)))) /\
  vars (engine (mount false init1))
  ⊆ vars (engine (snd (loadModel false init2 (mount false init1)))) /\
  same_output (fst (predict false m1 x1 e1)) (fst (predict false m1 x2 e2)).
Proof.
  intros Hm1 Hm2 Hv1 Hv2 Hlive1 Hlive2 Hshape Hshape2 Hvalues.
  destruct (mount_spec init1) as (m & Hm & Hc1 & Hb1 & _ & Hl1 & Hok1 & _).
  rewrite Hm1 in Hm. injection Hm as <-.
  destruct (mount_weights init1) as (m & Hm & Hne1 & Hw1).
  rewrite Hm1 in Hm. injection Hm as <-.
  destruct (loadModel_weights init2 (mount false init1) Hok1)
    as (m & Hm & Hne2 & Hw2).
  rewrite Hm2 in Hm. injection Hm as <-.
  revert Hv1 Hv2 Hl1 Hok1 Hm2 Hw1 Hw2. clear Hm1.
  generalize (mount false init1).
  intros w1 Hv1 Hv2 Hl1 Hok1 Hm2 Hw1 Hw2.
  destruct (sequential_spec init2 (engine w1) Hok1)
    as (m & e' & Hs & Hc & Hb & _ & Hl & Hsub & Hok2 & _).
  revert Hv2 Hm2 Hw2. unfold loadModel. rewrite Hs.
  cbn [fst snd ui engine setModel setModelLoading model]. intros Hv2 [= <-] Hw2.
  split; [reflexivity|].
  split; [unfold mounted, ready;
          cbn [ui engine model compile layers batchInputShape]; auto|].
  split; [exact Hne1|]. split; [exact Hne2|].
  split; [exact Hw1|].
  split.
  { intros k Hk. destruct (Hw2 k Hk) as [Hnone Hsome].
    split; [exact Hnone|]. split; [exact Hsome|].
    intros Hk1. destruct (Hw1 k Hk1) as [K HK]. congruence. }
  split; [unfold ready; split; [exact Hc1|]; split; [exact Hb1|];
          now apply (layers_ok_weaken (vars (engine w1)))|].
  split; [exact Hsub|].
  rewrite !predict_unfold. rewrite !decide_True by assumption.
  rewrite Hshape2, Hshape, Hvalues, Hb1.
  rewrite bool_decide_eq_true_2 by reflexivity. cbn [negb].
  rewrite (forward_weaken (layers m1) _ (countPass e1) (countPass e2)
             1 [224; 224; 3]);
    [|cbn [vars countPass]; rewrite Hv1; exact Hl1|reflexivity
     |cbn [vars countPass]; rewrite Hv1, Hv2; exact Hsub].
  destruct (fst (forward false (layers m1) _ (countPass e1))) as [y|msg];
    cbn [fst same_output shape values]; auto.
Qed.

Lemma vars_register {A} (sh : list Z) (vs : list A) (e : Engine) :
  vars (snd (register sh vs e)) = vars e.
Proof. reflexivity. Qed.

Lemma register_live {A} (sh : list Z) (vs : list A) (e : Engine) :
  tid (mkTensor (next_id e) sh vs) ∈ live (snd (register sh vs e)).
Proof. apply fresh_in. Qed.

Lemma loadModel_again_leaves_first_model_intact_witness :
  exists m1 m2,
    model (ui (mount false zeroInit)) = Some m1 /\
    model (ui (snd (loadModel false zeroInit (mount false zeroInit)))) = Some m2 /\
    fst (loadModel false zeroInit (mount false zeroInit)) = Resolved tt /\
    mounted (snd (loadModel false zeroInit (mount false zeroInit))) m2 /\
    weights m1 <> [] /\ weights m2 <> [] /\
    (forall k, k ∈ weights m1 -> is_Some (vars (engine (mount false zeroInit)) !! k)) /\
    (forall k, k ∈ weights m2 ->
               vars (engine (mount false zeroInit)) !! k = None /\
               is_Some (vars (engine (snd (loadModel false zeroInit
                                             (mount false zeroInit)))) !! k) /\
               k ∉ weights m1) /\
    ready m1 (engine (snd (loadModel false zeroInit (mount false zeroInit)))) /\
    vars (engine (mount false zeroInit))
    ⊆ vars (engine (snd (loadModel false zeroInit (mount false zeroInit)))) /\
    same_output
      (fst (predict false m1
              (mkTensor (next_id (engine (mount false zeroInit))) [1; 224; 224; 3]
                        (map (fun _ => F32.zero) (seqZ 0 150528)))
              (snd (register [1; 224; 224; 3]
                             (map (fun _ => F32.zero) (seqZ 0 150528))
                             (engine (mount false zeroInit))))))
      (fst (predict false m1
              (mkTensor
                 (next_id (engine (snd (loadModel false zeroInit
                                          (mount false zeroInit)))))
                 [1; 224; 224; 3] (map (fun _ => F32.zero) (seqZ 0 150528)))
              (snd (register [1; 224; 224; 3]
                             (map (fun _ => F32.zero) (seqZ 0 150528))
                             (engine (snd (loadModel false zeroInit
                                             (mount false zeroInit)))))))).
Proof.
  destruct (mount_spec zeroInit) as (m1 & Hm1 & _ & _ & _ & _ & Hok1 & _).
  destruct (loadModel_weights zeroInit (mount false zeroInit) Hok1) as (m2 & Hm2 & _).
  exists m1, m2. split; [exact Hm1|]. split; [exact Hm2|].
  refine (loadModel_again_leaves_first_model_intact zeroInit zeroInit m1 m2 _ _ _ _
            Hm1 Hm2 (vars_register _ _ _) (vars_register _ _ _)
            (register_live _ _ _) (register_live _ _ _) eq_refl eq_refl eq_refl).
Defined.
